(** * go_mcp_server_searxng: the search client and the tool adapter

    A shallow embedding of [searxng.go] (the SearXNG HTTP client) and of the
    four tool handlers of [main.go], followed by the properties of the
    translation layer: how a loosely typed argument map becomes a
    [SearchParams], how the query string is built, and how the backend's
    answer is shaped into the tool's text payload.

    Go strings are byte sequences: they are [string]s here, one [ascii] per
    byte.  Go's [int] is 64 bits wide on the build targets of the Makefile
    (GOARCH=amd64) and is a [Z].  Go maps are [gmap]s; the order in which a
    [range] loop visits a map is not fixed by the language and is an explicit
    parameter ([MapOrder]). *)

From Stdlib Require Import ZArith Ascii String DecimalString SpecFloat.
From stdpp Require Import base option list sorting gmap strings.

Local Open Scope Z_scope.
Set Warnings "-register-all,-clear-no-such-hyp".

(** ** Bytes *)

Definition byte_of (n : N) : ascii := ascii_of_N n.
Definition code (c : ascii) : N := N_of_ascii c.
Definition bytes (l : list N) : string := string_of_list_ascii (byte_of <$> l).

Definition quote_char : ascii := byte_of 34.
Definition newline : string := bytes [10%N].

(** ** Package [strings] *)
Module gostrings.

(** [len(s) >= len(suffix) && s[len(s)-len(suffix):] == suffix] *)
Definition HasSuffix (s suffix : string) : bool :=
  let n := String.length s in
  let k := String.length suffix in
  (k <=? n)%nat && String.eqb (substring (n - k) k s) suffix.

(** [if HasSuffix(s, suffix) { return s[:len(s)-len(suffix)] }; return s] *)
Definition TrimSuffix (s suffix : string) : string :=
  if HasSuffix s suffix
  then substring 0 (String.length s - String.length suffix) s
  else s.

Fixpoint Join (elems : list string) (sep : string) : string :=
  match elems with
  | [] => EmptyString
  | [x] => x
  | x :: rest => x +:+ sep +:+ Join rest sep
  end.

(** [Split(s, sep)] for a non-empty separator: [s] is cut at every
    occurrence of [sep], scanning from the left, occurrences not
    overlapping.  [skip] counts the bytes of a separator still to pass,
    [cur] holds the bytes of the current piece in reverse. *)
Fixpoint split_go (sep : string) (skip : nat) (cur : string) (s : string)
  : list string :=
  match s with
  | EmptyString => [String.rev cur]
  | String c s' =>
      match skip with
      | S k => split_go sep k cur s'
      | O =>
          if String.prefix sep s
          then String.rev cur :: split_go sep (String.length sep - 1) EmptyString s'
          else split_go sep O (String c cur) s'
      end
  end.

(** With an empty separator Go explodes [s] into its UTF-8 sequences; the
    program only ever splits on [","], and the model gives the bytes. *)
Definition Split (s sep : string) : list string :=
  match sep with
  | EmptyString => (fun c => String c EmptyString) <$> list_ascii_of_string s
  | _ => split_go sep O EmptyString s
  end.

(** The code points with Unicode's White_Space property ([unicode.IsSpace]):
    U+0009..U+000D and U+0020 are one byte in UTF-8 ... *)
Definition isSpace1 (c : ascii) : bool :=
  let n := code c in
  ((9 <=? n) && (n <=? 13) || (n =? 32))%N.

(** ... U+0085 and U+00A0 are two bytes ... *)
Definition isSpace2 (c1 c2 : ascii) : bool :=
  ((code c1 =? 194) && ((code c2 =? 133) || (code c2 =? 160)))%N.

(** ... and U+1680, U+2000..U+200A, U+2028, U+2029, U+202F, U+205F and
    U+3000 are three. *)
Definition isSpace3 (c1 c2 c3 : ascii) : bool :=
  let '(a, b, c) := (code c1, code c2, code c3) in
  ((a =? 225) && (b =? 154) && (c =? 128)
   || (a =? 226) && (b =? 128)
      && ((128 <=? c) && (c <=? 138) || (c =? 168) || (c =? 169) || (c =? 175))
   || (a =? 226) && (b =? 129) && (c =? 159)
   || (a =? 227) && (b =? 128) && (c =? 128))%N.

(** Leading white space: a rune is decoded at the front and dropped while
    it is a space. *)
Fixpoint trimLeft (s : string) : string :=
  match s with
  | EmptyString => EmptyString
  | String c1 s1 =>
      if isSpace1 c1 then trimLeft s1
      else match s1 with
           | EmptyString => s
           | String c2 s2 =>
               if isSpace2 c1 c2 then trimLeft s2
               else match s2 with
                    | EmptyString => s
                    | String c3 s3 =>
                        if isSpace3 c1 c2 c3 then trimLeft s3 else s
                    end
           end
  end.

(** Trailing white space, read on the reversed bytes: the last rune is
    decoded and dropped while it is a space. *)
Fixpoint trimLeftRev (s : string) : string :=
  match s with
  | EmptyString => EmptyString
  | String c1 s1 =>
      if isSpace1 c1 then trimLeftRev s1
      else match s1 with
           | EmptyString => s
           | String c2 s2 =>
               if isSpace2 c2 c1 then trimLeftRev s2
               else match s2 with
                    | EmptyString => s
                    | String c3 s3 =>
                        if isSpace3 c3 c2 c1 then trimLeftRev s3 else s
                    end
           end
  end.

Definition trimRight (s : string) : string :=
  String.rev (trimLeftRev (String.rev s)).

Definition TrimSpace (s : string) : string := trimRight (trimLeft s).

End gostrings.

(** ** Package [strconv] *)
Module strconv.

(** Decimal text of an integer, with a leading [-] when negative. *)
Definition Itoa (i : Z) : string := NilZero.string_of_int (Z.to_int i).

End strconv.

(** ** [float64] and its conversion to [int] *)

(** A [float64] is a sign, a mantissa and a binary exponent, or a zero, an
    infinity or a NaN. *)
Definition float64 : Type := spec_float.

Definition minInt : Z := - 2 ^ 63.
Definition maxInt : Z := 2 ^ 63 - 1.

(** The integer part of a finite float: its magnitude [m * 2^e] with the
    fraction bits shifted out, under its sign. *)
Definition float64_trunc (f : float64) : option Z :=
  match f with
  | S754_zero _ => Some 0
  | S754_finite s m e =>
      let a := Z.shiftl (Z.pos m) e in
      Some (if s then - a else a)
  | S754_infinity _ | S754_nan => None
  end.

(** [int(f)].  Go leaves the result open when the integer part does not fit;
    amd64 (CVTTSD2SQ) answers the smallest [int] then. *)
Definition int_of_float64 (f : float64) : Z :=
  match float64_trunc f with
  | Some z => if (minInt <=? z) && (z <=? maxInt) then z else minInt
  | None => minInt
  end.

Definition float64_isZero (f : float64) : bool :=
  match f with S754_zero _ => true | _ => false end.

Definition float64_isFinite (f : float64) : bool :=
  match f with S754_zero _ | S754_finite _ _ _ => true | _ => false end.

(** ** Go maps and their iteration order *)

(** A [range] over a map visits every entry once, in an order the language
    leaves open (and the runtime randomises).  An iteration order is any
    enumeration of the entries. *)
Record MapOrder : Type := {
  range : ∀ V : Type, gmap string V → list (string * V);
  range_perm : ∀ (V : Type) (m : gmap string V), range V m ≡ₚ map_to_list m
}.
Arguments range _ {V} _.

Definition canonical_order : MapOrder :=
  {| range := λ V m, map_to_list m;
     range_perm := λ V m, reflexivity (map_to_list m) |}.

Definition reversed_order : MapOrder :=
  {| range := λ V m, reverse (map_to_list m);
     range_perm := λ V m, reverse_Permutation (map_to_list m) |}.

(** [slices.Sort] on strings orders them bytewise; [String.le] is that order.
    The keys of a map are distinct, so every correct sort gives the same
    list ([sortKeys_perm], [sortByKey_perm] below). *)
Definition sortKeys (keys : list string) : list string :=
  merge_sort String.le keys.

Definition key_le {V : Type} (a b : string * V) : Prop := String.le a.1 b.1.

Global Instance key_le_dec {V : Type} : RelDecision (@key_le V).
Proof. intros a b. unfold key_le. apply _. Defined.

Definition sortByKey {V : Type} (entries : list (string * V)) : list (string * V) :=
  merge_sort key_le entries.

(** ** Package [net/url] *)
Module url.

(** [url.Values]: [map[string][]string]. *)
Abbreviation Values := (gmap string (list string)).

(** [v[key] = []string{value}] *)
Definition Set_ (v : Values) (key value : string) : Values :=
  <[key := [value]]> v.

Definition isAlnum (c : ascii) : bool :=
  let n := code c in
  ((48 <=? n) && (n <=? 57) || (65 <=? n) && (n <=? 90)
   || (97 <=? n) && (n <=? 122))%N.

(** [shouldEscape(c, encodeQueryComponent)]: letters, digits and
    [-], [_], [.], [~] pass; every other byte is escaped. *)
Definition shouldEscape (c : ascii) : bool :=
  negb (isAlnum c
        || (code c =? 45)%N || (code c =? 95)%N
        || (code c =? 46)%N || (code c =? 126)%N).

Definition upperhex (n : N) : ascii :=
  if (n <? 10)%N then byte_of (48 + n) else byte_of (55 + n).

Fixpoint QueryEscape (s : string) : string :=
  match s with
  | EmptyString => EmptyString
  | String c s' =>
      if (code c =? 32)%N then String "+" (QueryEscape s')
      else if shouldEscape c
      then String "%" (String (upperhex (code c / 16))
                         (String (upperhex (code c mod 16)) (QueryEscape s')))
      else String c (QueryEscape s')
  end.

(** [Encode]: the keys are collected by a [range] over the map, sorted,
    and every value of every key is written as [key=value], the pairs
    joined by [&]. *)
Definition Encode (ord : MapOrder) (v : Values) : string :=
  let keys := sortKeys (range ord v).*1 in
  gostrings.Join
    (k ← keys;
     let keyEscaped := QueryEscape k in
     (λ x, keyEscaped +:+ "=" +:+ QueryEscape x) <$> default [] (v !! k))
    "&".

End url.

(** ** Dynamic values *)

(** What [encoding/json] stores in an [interface{}]: the argument map of a
    tool call and the backend's [/config] payload are made of these.  A
    [VMap] lists the entries of a [map[string]interface{}]. *)
Inductive value : Type :=
| VNil
| VBool (b : bool)
| VNumber (f : float64)
| VString (s : string)
| VArray (l : list value)
| VMap (m : list (string * value)).

(** The type assertions [x.(string)] and [x.(float64)] on the result of a
    map lookup: a missing key gives the nil interface, which fails both. *)
Definition as_string (x : option value) : option string :=
  match x with Some (VString s) => Some s | _ => None end.

Definition as_float64 (x : option value) : option float64 :=
  match x with Some (VNumber f) => Some f | _ => None end.

(** ** Package [encoding/json]: documents and their indented text *)

(** A value as the encoder sees it.  The fields of a [JObject] are in the
    order they are written: declaration order for a struct, key order for a
    map. *)
Inductive json : Type :=
| JNull
| JBool (b : bool)
| JInt (i : Z)
| JFloat (f : float64)
| JString (s : string)
| JArray (elems : list json)
| JObject (fields : list (string * json)).

Module encjson.

Definition hex (n : N) : ascii :=
  if (n <? 10)%N then byte_of (48 + n) else byte_of (87 + n).

Definition backslash : ascii := byte_of 92.

(** A byte below 0x80 inside a string literal.  [MarshalIndent] escapes
    HTML: besides the quote, the backslash and the control bytes, the
    bytes [<], [>] and [&] are written as [\u00XX]. *)
Definition escapeByte (b : ascii) : string :=
  let n := code b in
  if ((n =? 92) || (n =? 34))%N then String backslash (String b EmptyString)
  else if (n =? 8)%N then String backslash "b"
  else if (n =? 12)%N then String backslash "f"
  else if (n =? 10)%N then String backslash "n"
  else if (n =? 13)%N then String backslash "r"
  else if (n =? 9)%N then String backslash "t"
  else if ((n <? 32) || (n =? 60) || (n =? 62) || (n =? 38))%N
  then String backslash ("u00" +:+ String (hex (n / 16)) (String (hex (n mod 16)) EmptyString))
  else String b EmptyString.

Definition cont (c : ascii) : bool := ((128 <=? code c) && (code c <=? 191))%N.

(** Well-formed UTF-8 sequences of two, three and four bytes
    ([utf8.DecodeRuneInString] accepts exactly these). *)
Definition utf8_2 (b1 b2 : ascii) : bool :=
  ((194 <=? code b1) && (code b1 <=? 223))%N && cont b2.

Definition utf8_3 (b1 b2 b3 : ascii) : bool :=
  let '(a, b) := (code b1, code b2) in
  ((a =? 224) && (160 <=? b) && (b <=? 191)
   || (225 <=? a) && (a <=? 236) && (128 <=? b) && (b <=? 191)
   || (a =? 237) && (128 <=? b) && (b <=? 159)
   || (238 <=? a) && (a <=? 239) && (128 <=? b) && (b <=? 191))%N
  && cont b3.

Definition utf8_4 (b1 b2 b3 b4 : ascii) : bool :=
  let '(a, b) := (code b1, code b2) in
  ((a =? 240) && (144 <=? b) && (b <=? 191)
   || (241 <=? a) && (a <=? 243) && (128 <=? b) && (b <=? 191)
   || (a =? 244) && (128 <=? b) && (b <=? 143))%N
  && cont b3 && cont b4.

(** U+2028 and U+2029 (E2 80 A8, E2 80 A9) are escaped. *)
Definition lineSep (b1 b2 b3 : ascii) : option string :=
  if ((code b1 =? 226) && (code b2 =? 128)
      && ((code b3 =? 168) || (code b3 =? 169)))%N
  then Some (String backslash ("u202" +:+ String (hex (code b3 mod 16)) EmptyString))
  else None.

Definition replacement : string := String backslash "ufffd".

(** The body of a string literal: bytes that do not start a well-formed
    sequence are replaced by [�], one byte at a time. *)
Fixpoint escapeString (s : string) : string :=
  match s with
  | EmptyString => EmptyString
  | String b1 s1 =>
      if (code b1 <? 128)%N then escapeByte b1 +:+ escapeString s1
      else
        match s1 with
        | EmptyString => replacement
        | String b2 s2 =>
            if utf8_2 b1 b2 then String b1 (String b2 (escapeString s2))
            else
              match s2 with
              | EmptyString => replacement +:+ escapeString s1
              | String b3 s3 =>
                  if utf8_3 b1 b2 b3 then
                    match lineSep b1 b2 b3 with
                    | Some e => e +:+ escapeString s3
                    | None => String b1 (String b2 (String b3 (escapeString s3)))
                    end
                  else
                    match s3 with
                    | EmptyString => replacement +:+ escapeString s1
                    | String b4 s4 =>
                        if utf8_4 b1 b2 b3 b4
                        then String b1 (String b2 (String b3 (String b4 (escapeString s4))))
                        else replacement +:+ escapeString s1
                    end
              end
        end
  end.

Definition appendString (s : string) : string :=
  String quote_char (escapeString s +:+ String quote_char EmptyString).

End encjson.

(** ** Results, errors and the network *)

(** A Go [(T, error)] pair: a value, or an error with its message. *)
Inductive result (A : Type) : Type :=
| Ok (x : A)
| Err (msg : string).
Arguments Ok {A} x.
Arguments Err {A} msg.

(** [fmt.Errorf(prefix + "%w", err)] *)
Definition wrapErr {A : Type} (prefix : string) (r : result A) : result A :=
  match r with
  | Ok x => Ok x
  | Err msg => Err (prefix +:+ msg)
  end.

Module http.

Abbreviation Header := (gmap string (list string)).

Record Request : Type := {
  Method : string;
  URL : string;
  Headers : Header
}.

(** What reading a response body to its end gives: the bytes read, and the
    error that stopped the reading, if any. *)
Record Body : Type := {
  read : string;
  readErr : option string
}.

Record Response : Type := {
  StatusCode : Z;
  RespBody : Body
}.

Definition StatusOK : Z := 200.

Record Client : Type := {
  Timeout : Z   (* nanoseconds *)
}.

(** [req.Header.Set(key, value)]; both keys the program sets are already in
    canonical form. *)
Definition Header_Set (req : Request) (key value : string) : Request :=
  {| Method := Method req; URL := URL req;
     Headers := <[key := [value]]> (Headers req) |}.

End http.

(** The backend as the program meets it: the outcome of sending a request,
    a transport failure or a response. *)
Definition Backend : Type := http.Request → result http.Response.

(** The two things a run of a handler depends on besides its arguments. *)
Record World : Type := {
  backend : Backend;
  order : MapOrder
}.

(** A computation that may send requests and may fail: the requests handed
    to [HTTPClient.Do], in order, and the value or the error. *)
Record outcome (A : Type) : Type := {
  sent : list http.Request;
  res : result A
}.
Arguments sent {A} _.
Arguments res {A} _.

Definition Net (A : Type) : Type := World → outcome A.

Global Instance Net_ret : MRet Net :=
  λ A x _, {| sent := []; res := Ok x |}.

Global Instance Net_bind : MBind Net :=
  λ A B k m w,
    let o := m w in
    match res o with
    | Ok x => let o' := k x w in {| sent := sent o ++ sent o'; res := res o' |}
    | Err msg => {| sent := sent o; res := Err msg |}
    end.

Definition lift {A : Type} (r : result A) : Net A :=
  λ _, {| sent := []; res := r |}.

Definition fail {A : Type} (msg : string) : Net A := lift (Err msg).

Definition wrap {A : Type} (prefix : string) (m : Net A) : Net A :=
  λ w, let o := m w in {| sent := sent o; res := wrapErr prefix (res o) |}.

Definition iteration : Net MapOrder :=
  λ w, {| sent := []; res := Ok (order w) |}.

(** [c.Do(req)] *)
Definition Do (c : http.Client) (req : http.Request) : Net http.Response :=
  λ w, {| sent := [req]; res := backend w req |}.

(** [io.ReadAll(resp.Body)] *)
Definition ReadAll (b : http.Body) : result string :=
  match http.readErr b with
  | None => Ok (http.read b)
  | Some e => Err e
  end.

(** ** The data model of [searxng.go] *)

Module SearchResult.
Record t : Type := {
  Title : string;
  URL : string;
  Content : string;
  Engine : string;
  Category : string;
  Score : float64;
  PublishedDate : string
}.
End SearchResult.
Abbreviation SearchResult := SearchResult.t.

Module SearchResponse.
(** [Results] is [None] for Go's nil slice, which is written [null]; the
    other slices are only ever tested for their length. *)
Record t : Type := {
  Query : string;
  NumberOfResults : Z;
  Results : option (list SearchResult);
  Answers : list string;
  Corrections : list string;
  Infoboxes : list value;
  Suggestions : list string
}.
End SearchResponse.
Abbreviation SearchResponse := SearchResponse.t.

Module SearchParams.
Record t : Type := {
  Query : string;
  Categories : list string;
  Engines : list string;
  Language : string;
  PageNo : Z;
  TimeRange : string;
  SafeSearch : Z
}.

Definition with_Categories (p : t) (x : list string) : t :=
  {| Query := Query p; Categories := x; Engines := Engines p;
     Language := Language p; PageNo := PageNo p; TimeRange := TimeRange p;
     SafeSearch := SafeSearch p |}.
Definition with_Engines (p : t) (x : list string) : t :=
  {| Query := Query p; Categories := Categories p; Engines := x;
     Language := Language p; PageNo := PageNo p; TimeRange := TimeRange p;
     SafeSearch := SafeSearch p |}.
Definition with_Language (p : t) (x : string) : t :=
  {| Query := Query p; Categories := Categories p; Engines := Engines p;
     Language := x; PageNo := PageNo p; TimeRange := TimeRange p;
     SafeSearch := SafeSearch p |}.
Definition with_PageNo (p : t) (x : Z) : t :=
  {| Query := Query p; Categories := Categories p; Engines := Engines p;
     Language := Language p; PageNo := x; TimeRange := TimeRange p;
     SafeSearch := SafeSearch p |}.
Definition with_TimeRange (p : t) (x : string) : t :=
  {| Query := Query p; Categories := Categories p; Engines := Engines p;
     Language := Language p; PageNo := PageNo p; TimeRange := x;
     SafeSearch := SafeSearch p |}.
Definition with_SafeSearch (p : t) (x : Z) : t :=
  {| Query := Query p; Categories := Categories p; Engines := Engines p;
     Language := Language p; PageNo := PageNo p; TimeRange := TimeRange p;
     SafeSearch := x |}.
End SearchParams.
Abbreviation SearchParams := SearchParams.t.

Record SearXNGClient : Type := {
  BaseURL : string;
  HTTPClient : http.Client
}.

Definition Second : Z := 1000000000.

Definition NewSearXNGClient (baseURL : string) : SearXNGClient :=
  {| BaseURL := gostrings.TrimSuffix baseURL "/";
     HTTPClient := {| http.Timeout := 30 * Second |} |}.

(** ** What the Go libraries decide *)

(** The parts of the standard library the program calls and this
    development does not look into: whether [http.NewRequest] accepts a URL
    (it parses it), how [json.Unmarshal] reads a body into a
    [SearchResponse] or into a [map[string]interface{}] ([None]: the map
    stays nil), and the text the encoder writes for a finite [float64]. *)
Class GoLib : Type := {
  url_Parse_error : string → option string;
  Unmarshal_SearchResponse : string → result SearchResponse;
  Unmarshal_config : string → result (option (gmap string value));
  floatEncoder : float64 → string
}.

Module mcp.

Record CallToolParams : Type := {
  Name : string;
  Arguments : gmap string value
}.

Record CallToolRequest : Type := {
  Params : CallToolParams
}.

Record TextContent : Type := {
  Type_ : string;
  Text : string
}.

Record CallToolResult : Type := {
  Content : list TextContent;
  IsError : bool
}.

Definition NewToolResultText (text : string) : CallToolResult :=
  {| Content := [{| Type_ := "text"; Text := text |}]; IsError := false |}.

End mcp.

Section Program.
Context `{!GoLib}.

(** ** [json.MarshalIndent] *)

(** The encoder refuses a NaN and the infinities. *)
Definition unsupportedFloat (f : float64) : option string :=
  match f with
  | S754_nan => Some "NaN"
  | S754_infinity false => Some "+Inf"
  | S754_infinity true => Some "-Inf"
  | _ => None
  end.

Fixpoint unsupported (v : json) : option string :=
  match v with
  | JFloat f => unsupportedFloat f
  | JArray elems =>
      (fix first (l : list json) : option string :=
         match l with
         | [] => None
         | x :: l' =>
             match unsupported x with Some e => Some e | None => first l' end
         end) elems
  | JObject fields =>
      (fix first (l : list (string * json)) : option string :=
         match l with
         | [] => None
         | (_, x) :: l' =>
             match unsupported x with Some e => Some e | None => first l' end
         end) fields
  | _ => None
  end.

Fixpoint indentation (indent : string) (depth : nat) : string :=
  match depth with
  | O => EmptyString
  | S d => indent +:+ indentation indent d
  end.

(** Every element of an array or an object begins on a new line, which
    starts with [prefix] and one [indent] per level of nesting. *)
Definition nl (prefix indent : string) (depth : nat) : string :=
  newline +:+ prefix +:+ indentation indent depth.

Fixpoint render (prefix indent : string) (depth : nat) (v : json) : string :=
  match v with
  | JNull => "null"
  | JBool true => "true"
  | JBool false => "false"
  | JInt i => strconv.Itoa i
  | JFloat f => floatEncoder f
  | JString s => encjson.appendString s
  | JArray [] => "[]"
  | JArray elems =>
      "[" +:+ nl prefix indent (S depth)
      +:+ gostrings.Join (render prefix indent (S depth) <$> elems)
            ("," +:+ nl prefix indent (S depth))
      +:+ nl prefix indent depth +:+ "]"
  | JObject [] => "{}"
  | JObject fields =>
      "{" +:+ nl prefix indent (S depth)
      +:+ gostrings.Join
            ((λ kv : string * json,
                encjson.appendString kv.1 +:+ ": "
                +:+ render prefix indent (S depth) kv.2) <$> fields)
            ("," +:+ nl prefix indent (S depth))
      +:+ nl prefix indent depth +:+ "}"
  end.

Definition MarshalIndent (v : json) (prefix indent : string) : result string :=
  match unsupported v with
  | Some e => Err ("json: unsupported value: " +:+ e)
  | None => Ok (render prefix indent O v)
  end.

(** A Go map is written with its keys sorted: the entries are collected by
    a [range] and sorted by key. *)
Definition map_json (ord : MapOrder) (m : gmap string json) : json :=
  JObject (sortByKey (range ord m)).

(** ** How the program's values are encoded *)

Fixpoint value_json (v : value) : json :=
  match v with
  | VNil => JNull
  | VBool b => JBool b
  | VNumber f => JFloat f
  | VString s => JString s
  | VArray l => JArray (value_json <$> l)
  | VMap m => JObject (sortByKey ((λ kv : string * value, (kv.1, value_json kv.2)) <$> m))
  end.

Definition strings_json (l : list string) : json := JArray (JString <$> l).

(** A field tagged [omitempty] is left out when it is zero or empty. *)
Definition omitempty (empty : bool) (key : string) (v : json) : list (string * json) :=
  if empty then [] else [(key, v)].

Definition SearchResult_json (r : SearchResult) : json :=
  JObject
    ([("title", JString (SearchResult.Title r));
      ("url", JString (SearchResult.URL r));
      ("content", JString (SearchResult.Content r));
      ("engine", JString (SearchResult.Engine r));
      ("category", JString (SearchResult.Category r))]
     ++ omitempty (float64_isZero (SearchResult.Score r))
          "score" (JFloat (SearchResult.Score r))
     ++ omitempty (String.eqb (SearchResult.PublishedDate r) EmptyString)
          "publishedDate" (JString (SearchResult.PublishedDate r))).

Definition Results_json (rs : option (list SearchResult)) : json :=
  match rs with
  | None => JNull
  | Some l => JArray (SearchResult_json <$> l)
  end.

Definition is_nil {A : Type} (l : list A) : bool :=
  match l with [] => true | _ => false end.

Definition SearchResponse_json (r : SearchResponse) : json :=
  JObject
    ([("query", JString (SearchResponse.Query r));
      ("number_of_results", JInt (SearchResponse.NumberOfResults r));
      ("results", Results_json (SearchResponse.Results r))]
     ++ omitempty (is_nil (SearchResponse.Answers r))
          "answers" (strings_json (SearchResponse.Answers r))
     ++ omitempty (is_nil (SearchResponse.Corrections r))
          "corrections" (strings_json (SearchResponse.Corrections r))
     ++ omitempty (is_nil (SearchResponse.Infoboxes r))
          "infoboxes" (JArray (value_json <$> SearchResponse.Infoboxes r))
     ++ omitempty (is_nil (SearchResponse.Suggestions r))
          "suggestions" (strings_json (SearchResponse.Suggestions r))).

Definition config_json (ord : MapOrder) (config : option (gmap string value)) : json :=
  match config with
  | None => JNull
  | Some m => map_json ord (value_json <$> m)
  end.

(** ** [searxng.go] *)

(** [http.NewRequest("GET", url, nil)] *)
Definition NewRequest (method url : string) : result http.Request :=
  match url_Parse_error url with
  | Some e => Err e
  | None => Ok {| http.Method := method; http.URL := url; http.Headers := ∅ |}
  end.

(** The [url.Values] that [Search] fills in. *)
Definition searchValues (params : SearchParams) : url.Values :=
  let values : url.Values := ∅ in
  let values := url.Set_ values "q" (SearchParams.Query params) in
  let values := url.Set_ values "format" "json" in
  let values :=
    if bool_decide (0 < length (SearchParams.Categories params))%nat
    then url.Set_ values "categories" (gostrings.Join (SearchParams.Categories params) ",")
    else values in
  let values :=
    if bool_decide (0 < length (SearchParams.Engines params))%nat
    then url.Set_ values "engines" (gostrings.Join (SearchParams.Engines params) ",")
    else values in
  let values :=
    if negb (String.eqb (SearchParams.Language params) EmptyString)
    then url.Set_ values "language" (SearchParams.Language params)
    else values in
  let values :=
    if bool_decide (0 < SearchParams.PageNo params)
    then url.Set_ values "pageno" (strconv.Itoa (SearchParams.PageNo params))
    else values in
  let values :=
    if negb (String.eqb (SearchParams.TimeRange params) EmptyString)
    then url.Set_ values "time_range" (SearchParams.TimeRange params)
    else values in
  let values :=
    if bool_decide (0 <= SearchParams.SafeSearch params)
       && bool_decide (SearchParams.SafeSearch params <= 2)
    then url.Set_ values "safesearch" (strconv.Itoa (SearchParams.SafeSearch params))
    else values in
  values.

(** The URL of the request: [searchURL + "?" + values.Encode()]. *)
Definition searchRequestURL (ord : MapOrder) (c : SearXNGClient) (params : SearchParams)
  : string :=
  let searchURL := BaseURL c +:+ "/search" in
  searchURL +:+ "?" +:+ url.Encode ord (searchValues params).

Definition setHeaders (req : http.Request) : http.Request :=
  let req := http.Header_Set req "User-Agent" "MCP-SearXNG-Client/1.0" in
  http.Header_Set req "Accept" "application/json".

Definition Search (c : SearXNGClient) (params : SearchParams) : Net SearchResponse :=
  ord ← iteration;
  req ← wrap "error creating request: "
          (lift (NewRequest "GET" (searchRequestURL ord c params)));
  let req := setHeaders req in
  resp ← wrap "error executing request: " (Do (HTTPClient c) req);
  if negb (http.StatusCode resp =? http.StatusOK) then
    let body := http.read (http.RespBody resp) in
    fail ("HTTP error " +:+ strconv.Itoa (http.StatusCode resp) +:+ ": " +:+ body)
  else
    body ← wrap "error reading response: " (lift (ReadAll (http.RespBody resp)));
    searchResponse ← wrap "error parsing JSON: " (lift (Unmarshal_SearchResponse body));
    mret searchResponse.

Definition GetEngines (c : SearXNGClient) : Net (option (gmap string value)) :=
  let enginesURL := BaseURL c +:+ "/config" in
  req ← wrap "error creating request: " (lift (NewRequest "GET" enginesURL));
  let req := setHeaders req in
  resp ← wrap "error executing request: " (Do (HTTPClient c) req);
  if negb (http.StatusCode resp =? http.StatusOK) then
    fail ("HTTP error " +:+ strconv.Itoa (http.StatusCode resp))
  else
    body ← wrap "error reading response: " (lift (ReadAll (http.RespBody resp)));
    config ← wrap "error parsing JSON: " (lift (Unmarshal_config body));
    mret config.

(** ** [main.go]: the tool handlers *)

(** [strings.Split(s, ",")] followed by [strings.TrimSpace] on every
    element. *)
Definition splitTrim (s : string) : list string :=
  gostrings.TrimSpace <$> gostrings.Split s ",".

Definition nonEmpty (s : string) : bool := negb (String.eqb s EmptyString).

(** The [SearchParams] the general-search handler builds from its
    arguments, once [query] is known to be a string. *)
Definition searxngSearchParams (query : string) (args : gmap string value)
  : SearchParams :=
  let params :=
    {| SearchParams.Query := query;
       SearchParams.Categories := ["general"];
       SearchParams.Engines := ["google"];
       SearchParams.Language := "en";
       SearchParams.PageNo := 0;
       SearchParams.TimeRange := EmptyString;
       SearchParams.SafeSearch := 0 |} in
  let params :=
    match as_string (args !! "categories") with
    | Some categories =>
        if nonEmpty categories
        then SearchParams.with_Categories params (splitTrim categories)
        else params
    | None => params
    end in
  let params :=
    match as_string (args !! "engines") with
    | Some engines =>
        if nonEmpty engines
        then SearchParams.with_Engines params (splitTrim engines)
        else params
    | None => params
    end in
  let params :=
    match as_string (args !! "language") with
    | Some language =>
        if nonEmpty language
        then SearchParams.with_Language params language
        else params
    | None => params
    end in
  let params :=
    match as_float64 (args !! "page") with
    | Some pageFloat => SearchParams.with_PageNo params (int_of_float64 pageFloat)
    | None => params
    end in
  let params :=
    match as_string (args !! "time_range") with
    | Some timeRange => SearchParams.with_TimeRange params timeRange
    | None => params
    end in
  let params :=
    match as_float64 (args !! "safe_search") with
    | Some safeSearchFloat =>
        SearchParams.with_SafeSearch params (int_of_float64 safeSearchFloat)
    | None => params
    end in
  params.

(** The [map[string]interface{}] the general-search handler fills in. *)
Definition searxngSearchResponse (result : SearchResponse) : gmap string json :=
  let response : gmap string json :=
    <["results" := Results_json (SearchResponse.Results result)]>
      (<["number_of_results" := JInt (SearchResponse.NumberOfResults result)]>
         (<["query" := JString (SearchResponse.Query result)]> ∅)) in
  let response :=
    if bool_decide (0 < length (SearchResponse.Answers result))%nat
    then <["answers" := strings_json (SearchResponse.Answers result)]> response
    else response in
  let response :=
    if bool_decide (0 < length (SearchResponse.Suggestions result))%nat
    then <["suggestions" := strings_json (SearchResponse.Suggestions result)]> response
    else response in
  let response :=
    if bool_decide (0 < length (SearchResponse.Corrections result))%nat
    then <["corrections" := strings_json (SearchResponse.Corrections result)]> response
    else response in
  response.

(** The process-wide client, set once by [main]. *)
Variable searxngClient : SearXNGClient.

Definition searxngSearchHandler (request : mcp.CallToolRequest)
  : Net mcp.CallToolResult :=
  let args := mcp.Arguments (mcp.Params request) in
  match as_string (args !! "query") with
  | None => fail "query must be a string"
  | Some query =>
      let params := searxngSearchParams query args in
      result ← wrap "search error: " (Search searxngClient params);
      let response := searxngSearchResponse result in
      ord ← iteration;
      jsonResult ← wrap "result serialization error: "
                     (lift (MarshalIndent (map_json ord response) EmptyString "  "));
      mret (mcp.NewToolResultText jsonResult)
  end.

Definition searxngEnginesInfoHandler (request : mcp.CallToolRequest)
  : Net mcp.CallToolResult :=
  config ← wrap "error getting engines information: " (GetEngines searxngClient);
  ord ← iteration;
  jsonResult ← wrap "result serialization error: "
                 (lift (MarshalIndent (config_json ord config) EmptyString "  "));
  mret (mcp.NewToolResultText jsonResult).

Definition searxngImageSearchParams (query : string) (args : gmap string value)
  : SearchParams :=
  let params :=
    {| SearchParams.Query := query;
       SearchParams.Categories := ["images"];
       SearchParams.Engines := ["google images"];
       SearchParams.Language := "en";
       SearchParams.PageNo := 0;
       SearchParams.TimeRange := EmptyString;
       SearchParams.SafeSearch := 0 |} in
  let params :=
    match as_string (args !! "engines") with
    | Some engines =>
        if nonEmpty engines
        then SearchParams.with_Engines params (splitTrim engines)
        else params
    | None => params
    end in
  let params :=
    match as_float64 (args !! "page") with
    | Some pageFloat => SearchParams.with_PageNo params (int_of_float64 pageFloat)
    | None => params
    end in
  params.

Definition searxngImageSearchHandler (request : mcp.CallToolRequest)
  : Net mcp.CallToolResult :=
  let args := mcp.Arguments (mcp.Params request) in
  match as_string (args !! "query") with
  | None => fail "query must be a string"
  | Some query =>
      let params := searxngImageSearchParams query args in
      result ← wrap "image search error: " (Search searxngClient params);
      jsonResult ← wrap "result serialization error: "
                     (lift (MarshalIndent (SearchResponse_json result) EmptyString "  "));
      mret (mcp.NewToolResultText jsonResult)
  end.

Definition searxngNewsSearchParams (query : string) (args : gmap string value)
  : SearchParams :=
  let params :=
    {| SearchParams.Query := query;
       SearchParams.Categories := ["news"];
       SearchParams.Engines := ["google news"];
       SearchParams.Language := "en";
       SearchParams.PageNo := 0;
       SearchParams.TimeRange := EmptyString;
       SearchParams.SafeSearch := 0 |} in
  let params :=
    match as_string (args !! "time_range") with
    | Some timeRange => SearchParams.with_TimeRange params timeRange
    | None => params
    end in
  let params :=
    match as_string (args !! "language") with
    | Some language =>
        if nonEmpty language
        then SearchParams.with_Language params language
        else params
    | None => params
    end in
  let params :=
    match as_float64 (args !! "page") with
    | Some pageFloat => SearchParams.with_PageNo params (int_of_float64 pageFloat)
    | None => params
    end in
  params.

Definition searxngNewsSearchHandler (request : mcp.CallToolRequest)
  : Net mcp.CallToolResult :=
  let args := mcp.Arguments (mcp.Params request) in
  match as_string (args !! "query") with
  | None => fail "query must be a string"
  | Some query =>
      let params := searxngNewsSearchParams query args in
      result ← wrap "news search error: " (Search searxngClient params);
      jsonResult ← wrap "result serialization error: "
                     (lift (MarshalIndent (SearchResponse_json result) EmptyString "  "));
      mret (mcp.NewToolResultText jsonResult)
  end.

End Program.

(** ** A stubbed library and backend, for running the model *)

(** The body of the spec's scenario, already decoded. *)
Definition catsResponse : SearchResponse :=
  {| SearchResponse.Query := "cats";
     SearchResponse.NumberOfResults := 1;
     SearchResponse.Results :=
       Some [{| SearchResult.Title := "T"; SearchResult.URL := "U";
                SearchResult.Content := "C"; SearchResult.Engine := "google";
                SearchResult.Category := "general";
                SearchResult.Score := S754_zero false;
                SearchResult.PublishedDate := EmptyString |}];
     SearchResponse.Answers := [];
     SearchResponse.Corrections := [];
     SearchResponse.Infoboxes := [];
     SearchResponse.Suggestions := [] |}.

(** A library that accepts every URL and decodes every body to
    [catsResponse]. *)
Definition stubLib : GoLib :=
  {| url_Parse_error := λ _, None;
     Unmarshal_SearchResponse := λ _, Ok catsResponse;
     Unmarshal_config := λ _, Ok (Some ∅);
     floatEncoder := λ _, "0" |}.

(** A backend that answers every request with the given status and body. *)
Definition stubBackend (status : Z) (body : string) : Backend :=
  λ _, Ok {| http.StatusCode := status;
             http.RespBody := {| http.read := body; http.readErr := None |} |}.

Definition stubWorld (status : Z) (body : string) (ord : MapOrder) : World :=
  {| backend := stubBackend status body; order := ord |}.

(** * The vocabulary of the properties *)

(** A string without a comma. *)
Definition comma_free (s : string) : Prop := ","%char ∉ list_ascii_of_string s.

(** One [key=value] pair of a query string. *)
Definition pair_text (key value : string) : string :=
  url.QueryEscape key +:+ "=" +:+ url.QueryEscape value.

(** The parameters [Search] can set, in the order [Encode] writes them. *)
Definition queryKeys : list string :=
  ["categories"; "engines"; "format"; "language"; "pageno"; "q";
   "safesearch"; "time_range"].

(** A parameter of the query string as the specification describes it: set
    to [value] when its inclusion condition holds, absent otherwise ... *)
Definition included (cond : bool) (value : string) : option (list string) :=
  if cond then Some [value] else None.

(** ... and the text it contributes to the query string. *)
Definition param (cond : bool) (key value : string) : list string :=
  if cond then [pair_text key value] else [].

Definition set_if (cond : bool) (key value : string) (v : url.Values) : url.Values :=
  if cond then url.Set_ v key value else v.

(** Membership in a list that is written out. *)
Ltac in_list :=
  repeat first [ apply list_elem_of_here | apply list_elem_of_further ].

(** The request [Search] hands to the HTTP client. *)
Definition searchRequest (ord : MapOrder) (c : SearXNGClient) (params : SearchParams)
  : http.Request :=
  setHeaders {| http.Method := "GET";
                http.URL := searchRequestURL ord c params;
                http.Headers := ∅ |}.

(** The request [GetEngines] hands to the HTTP client. *)
Definition enginesRequest (c : SearXNGClient) : http.Request :=
  setHeaders {| http.Method := "GET";
                http.URL := BaseURL c +:+ "/config";
                http.Headers := ∅ |}.

(** What [Search] does with the backend's answer. *)
Definition searchAnswer `{!GoLib} (r : result http.Response) : result SearchResponse :=
  match r with
  | Err e => Err ("error executing request: " +:+ e)
  | Ok resp =>
      if http.StatusCode resp =? http.StatusOK then
        match ReadAll (http.RespBody resp) with
        | Err e => Err ("error reading response: " +:+ e)
        | Ok body => wrapErr "error parsing JSON: " (Unmarshal_SearchResponse body)
        end
      else Err ("HTTP error " +:+ strconv.Itoa (http.StatusCode resp) +:+ ": "
                +:+ http.read (http.RespBody resp))
  end.

Definition enginesAnswer `{!GoLib} (r : result http.Response)
  : result (option (gmap string value)) :=
  match r with
  | Err e => Err ("error executing request: " +:+ e)
  | Ok resp =>
      if http.StatusCode resp =? http.StatusOK then
        match ReadAll (http.RespBody resp) with
        | Err e => Err ("error reading response: " +:+ e)
        | Ok body => wrapErr "error parsing JSON: " (Unmarshal_config body)
        end
      else Err ("HTTP error " +:+ strconv.Itoa (http.StatusCode resp))
  end.

(** The argument types the tool definitions of [main] declare
    ([mcp.WithString], [mcp.WithNumber]). *)
Inductive argType : Type := TString | TNumber.

Definition has_type (t : argType) (v : value) : bool :=
  match t, v with
  | TString, VString _ => true
  | TNumber, VNumber _ => true
  | _, _ => false
  end.

(** The optional arguments of the three search tools and their types. *)
Definition optionalArgs : list (string * argType) :=
  [("categories", TString); ("engines", TString); ("language", TString);
   ("page", TNumber); ("time_range", TString); ("safe_search", TNumber)].

Definition call (name : string) (args : gmap string value) : mcp.CallToolRequest :=
  {| mcp.Params := {| mcp.Name := name; mcp.Arguments := args |} |}.

Definition inputError : outcome mcp.CallToolResult :=
  {| sent := []; res := Err "query must be a string" |}.

(** The three search handlers. *)
Definition searchHandlers `{!GoLib} (c : SearXNGClient)
  : list (mcp.CallToolRequest → Net mcp.CallToolResult) :=
  [searxngSearchHandler c; searxngImageSearchHandler c; searxngNewsSearchHandler c].

(** How a handler ends once [Search] has answered. *)
Definition finish `{!GoLib} (prefix : string) (encode : SearchResponse → json)
    (o : outcome SearchResponse) : outcome mcp.CallToolResult :=
  {| sent := sent o;
     res := match res o with
            | Err e => Err (prefix +:+ e)
            | Ok r =>
                match MarshalIndent (encode r) EmptyString "  " with
                | Ok text => Ok (mcp.NewToolResultText text)
                | Err e => Err ("result serialization error: " +:+ e)
                end
            end |}.

Definition zero : float64 := S754_zero false.

Definition stubClient : SearXNGClient := NewSearXNGClient "http://127.0.0.1:8080".

(** The URLs a run of [Search] requests: one, unless the URL does not
    parse. *)
Definition requested (U : string) (err : option string) : list string :=
  match err with
  | None => [U]
  | Some _ => []
  end.

Definition catsArgs : gmap string value := {[ "query" := VString "cats" ]}.

(** The arguments the image search does not read. *)
Definition imageIgnored : list string :=
  ["categories"; "language"; "time_range"; "safe_search"].

(** Each search handler with the function that builds its parameters. *)
Definition searchTools `{!GoLib} (c : SearXNGClient)
  : list ((mcp.CallToolRequest → Net mcp.CallToolResult)
          * (string → gmap string value → SearchParams)) :=
  [(searxngSearchHandler c, searxngSearchParams);
   (searxngImageSearchHandler c, searxngImageSearchParams);
   (searxngNewsSearchHandler c, searxngNewsSearchParams)].

Definition emptyQueryArgs : gmap string value := {[ "query" := VString EmptyString ]}.

(** A key that is present under a condition, as a set and as a list. *)
Definition optKey (cond : bool) (k : string) : gset string :=
  if cond then {[ k ]} else ∅.

Definition optField (cond : bool) (k : string) : list string :=
  if cond then [k] else [].

(** One member of a JSON object at the top level of an indented text. *)
Definition member `{!GoLib} (kv : string * json) : string :=
  encjson.appendString kv.1 +:+ ": " +:+ render EmptyString "  " 1 kv.2.

Fixpoint spaces (n : nat) : string :=
  match n with
  | O => EmptyString
  | S k => String " " (spaces k)
  end.

(** [z] is [f] truncated toward zero: [|z| <= |f| < |z| + 1], and [z] has
    the sign of [f] or is zero.  The magnitude of a finite [f] is
    [m * 2^e], a fraction with a power of two as its denominator when [e]
    is negative. *)
Definition truncation (f : float64) (z : Z) : Prop :=
  match f with
  | S754_zero _ => z = 0
  | S754_finite s m e =>
      (Z.abs z * 2 ^ Z.max (- e) 0 <= Z.pos m * 2 ^ Z.max e 0
       ∧ Z.pos m * 2 ^ Z.max e 0 < (Z.abs z + 1) * 2 ^ Z.max (- e) 0)
      ∧ (if s then z <= 0 else 0 <= z)
  | S754_infinity _ | S754_nan => False
  end.

(** The list a handler uses for [categories] or [engines]. *)
Definition coerced (arg : option string) (default : list string) : list string :=
  match arg with
  | Some s => if bool_decide (s ≠ EmptyString) then splitTrim s else default
  | None => default
  end.

Definition pageOf (arg : option float64) : Z :=
  match arg with
  | Some pageFloat => int_of_float64 pageFloat
  | None => 0
  end.

(** The coerced list has nothing in it: no element, or empty strings only. *)
Definition emptyResult (l : list string) : Prop := Forall (λ x, x = EmptyString) l.

Definition blankArgs : gmap string value :=
  <["categories" := VString " "]> catsArgs.

Definition coercionArgs : gmap string value :=
  <["categories" := VString " general , news "]>
    (<["engines" := VString EmptyString]>
       (<["page" := VNumber (S754_finite false 5 (-1))]> catsArgs)).

(** ** [main.go]: the tools [main] registers *)

(** One argument of a tool ([mcp.WithString], [mcp.WithNumber], with
    [mcp.Required] and [mcp.Description]). *)
Record ToolArgument : Type := {
  ArgName : string;
  ArgType : argType;
  ArgRequired : bool;
  ArgDescription : string
}.

(** [mcp.NewTool(name, mcp.WithDescription(...), ...)] *)
Record Tool : Type := {
  ToolName : string;
  ToolDescription : string;
  ToolArguments : list ToolArgument
}.

Definition searchTool : Tool :=
  {| ToolName := "searxng_search";
     ToolDescription :=
       "Search information through SearXNG. Supports various categories and search engines.";
     ToolArguments :=
       [ {| ArgName := "query"; ArgType := TString; ArgRequired := true;
            ArgDescription := "Search query" |};
         {| ArgName := "categories"; ArgType := TString; ArgRequired := false;
            ArgDescription :=
              "Search categories (general, images, videos, news, music, files, science, it). Multiple values separated by comma" |};
         {| ArgName := "engines"; ArgType := TString; ArgRequired := false;
            ArgDescription :=
              "Search engines (google, bing, duckduckgo, yandex, etc.). Multiple values separated by comma" |};
         {| ArgName := "language"; ArgType := TString; ArgRequired := false;
            ArgDescription := "Search language (ru, en, de, fr, etc.)" |};
         {| ArgName := "page"; ArgType := TNumber; ArgRequired := false;
            ArgDescription := "Page number of results (default 1)" |};
         {| ArgName := "time_range"; ArgType := TString; ArgRequired := false;
            ArgDescription := "Time range (day, week, month, year)" |};
         {| ArgName := "safe_search"; ArgType := TNumber; ArgRequired := false;
            ArgDescription := "Safe search (0 - disabled, 1 - moderate, 2 - strict)" |} ] |}.

Definition enginesInfoTool : Tool :=
  {| ToolName := "searxng_engines_info";
     ToolDescription :=
       "Get information about available SearXNG search engines and categories";
     ToolArguments := [] |}.

Definition imageSearchTool : Tool :=
  {| ToolName := "searxng_image_search";
     ToolDescription := "Specialized image search through SearXNG";
     ToolArguments :=
       [ {| ArgName := "query"; ArgType := TString; ArgRequired := true;
            ArgDescription := "Search query for images" |};
         {| ArgName := "engines"; ArgType := TString; ArgRequired := false;
            ArgDescription :=
              "Image search engines (google images, bing images, flickr, etc.)" |};
         {| ArgName := "page"; ArgType := TNumber; ArgRequired := false;
            ArgDescription := "Page number of results" |} ] |}.

Definition newsSearchTool : Tool :=
  {| ToolName := "searxng_news_search";
     ToolDescription := "Specialized news search through SearXNG";
     ToolArguments :=
       [ {| ArgName := "query"; ArgType := TString; ArgRequired := true;
            ArgDescription := "Search query for news" |};
         {| ArgName := "time_range"; ArgType := TString; ArgRequired := false;
            ArgDescription := "Time range for news (day, week, month, year)" |};
         {| ArgName := "language"; ArgType := TString; ArgRequired := false;
            ArgDescription := "News language" |};
         {| ArgName := "page"; ArgType := TNumber; ArgRequired := false;
            ArgDescription := "Page number of results" |} ] |}.

(** The tools with their handlers, in the order of the [AddTool] calls. *)
Definition registeredTools `{!GoLib} (c : SearXNGClient)
  : list (Tool * (mcp.CallToolRequest → Net mcp.CallToolResult)) :=
  [ (searchTool, searxngSearchHandler c);
    (enginesInfoTool, searxngEnginesInfoHandler c);
    (imageSearchTool, searxngImageSearchHandler c);
    (newsSearchTool, searxngNewsSearchHandler c) ].

(** The headers every request of the client carries. *)
Definition clientHeaders : http.Header :=
  <["Accept" := ["application/json"]]>
    (<["User-Agent" := ["MCP-SearXNG-Client/1.0"]]> ∅).

(** A request as the client makes them: a GET with the client's headers,
    for [/search] with a query string or for [/config], under the base
    URL. *)
Definition clientRequest (c : SearXNGClient) (req : http.Request) : Prop :=
  http.Method req = "GET"
  ∧ http.Headers req = clientHeaders
  ∧ ((∃ params, http.URL req
                = BaseURL c +:+ "/search?"
                  +:+ url.Encode canonical_order (searchValues params))
     ∨ http.URL req = BaseURL c +:+ "/config").

(** What the engines-info handler makes of the answer of [GetEngines]. *)
Definition finishEngines `{!GoLib} (ord : MapOrder)
    (o : outcome (option (gmap string value))) : outcome mcp.CallToolResult :=
  {| sent := sent o;
     res := match res o with
            | Err e => Err ("error getting engines information: " +:+ e)
            | Ok config =>
                match MarshalIndent (config_json ord config) EmptyString "  " with
                | Ok text => Ok (mcp.NewToolResultText text)
                | Err e => Err ("result serialization error: " +:+ e)
                end
            end |}.

(** The stage a search handler names in front of an error of [Search]. *)
Definition errorPrefix (t : Tool) : string :=
  if String.eqb (ToolName t) "searxng_search" then "search error: "
  else if String.eqb (ToolName t) "searxng_image_search" then "image search error: "
  else if String.eqb (ToolName t) "searxng_news_search" then "news search error: "
  else "error getting engines information: ".

(** The text of the error for an answer with a status other than 200:
    [GetEngines] names the status, [Search] the status and the body. *)
Definition statusError (t : Tool) (resp : http.Response) : string :=
  if String.eqb (ToolName t) "searxng_engines_info"
  then "HTTP error " +:+ strconv.Itoa (http.StatusCode resp)
  else "HTTP error " +:+ strconv.Itoa (http.StatusCode resp) +:+ ": "
       +:+ http.read (http.RespBody resp).

(** The functions that build the parameters of the three searches. *)
Definition paramBuilders : list (string → gmap string value → SearchParams) :=
  [searxngSearchParams; searxngImageSearchParams; searxngNewsSearchParams].

Definition decimalArgs : gmap string value :=
  <["page" := VNumber (S754_finite false 9 (-4))]>
    (<["safe_search" := VNumber (S754_finite false 3 0)]> catsArgs).

(** ** Reading a query string back ([net/url]) *)

(** The bytes [QueryEscape] writes: letters, digits, [-], [_], [.], [~],
    and [%] and [+]. *)
Definition urlSafe (c : ascii) : bool :=
  negb (url.shouldEscape c) || (code c =? 37)%N || (code c =? 43)%N.

Definition unhex (c : ascii) : option N :=
  let n := code c in
  if ((48 <=? n) && (n <=? 57))%N then Some (n - 48)%N
  else if ((97 <=? n) && (n <=? 102))%N then Some (n - 87)%N
  else if ((65 <=? n) && (n <=? 70))%N then Some (n - 55)%N
  else None.

(** [url.QueryUnescape]: [%XX] is the byte [XX], [+] is a space; a [%] that
    is not followed by two hexadecimal digits is an error. *)
Fixpoint QueryUnescape (s : string) : option string :=
  match s with
  | EmptyString => Some EmptyString
  | String c s1 =>
      if (code c =? 37)%N then
        match s1 with
        | String h (String l s3) =>
            match unhex h, unhex l with
            | Some a, Some b => String (byte_of (16 * a + b)) <$> QueryUnescape s3
            | _, _ => None
            end
        | _ => None
        end
      else if (code c =? 43)%N then String " " <$> QueryUnescape s1
      else String c <$> QueryUnescape s1
  end.

(** [strings.Cut(s, sep)] for a separator of one byte: what stands before
    and after its first occurrence, or [s] and nothing when there is none. *)
Fixpoint cut_go (sep : ascii) (s : string) : option (string * string) :=
  match s with
  | EmptyString => None
  | String c s' =>
      if Ascii.eqb c sep then Some (EmptyString, s')
      else (λ ba : string * string, (String c ba.1, ba.2)) <$> cut_go sep s'
  end.

Definition Cut (s : string) (sep : ascii) : string * string :=
  match cut_go sep s with
  | Some ba => ba
  | None => (s, EmptyString)
  end.

Definition Contains (s : string) (c : ascii) : bool :=
  existsb (Ascii.eqb c) (list_ascii_of_string s).

(** One round of the loop of [url.ParseQuery], on the piece of the query
    between two [&]: a piece with a semicolon or a bad escape is skipped and
    the first such error kept; an empty piece is skipped; otherwise the value
    is appended to the values of its key. *)
Definition parseStep (st : url.Values * option string) (piece : string)
  : url.Values * option string :=
  let '(m, err) := st in
  let keep (e : string) := (m, Some (default e err)) in
  if Contains piece ";" then keep "invalid semicolon separator in query"
  else if String.eqb piece EmptyString then (m, err)
  else
    let '(key, value) := Cut piece "=" in
    match QueryUnescape key with
    | None => keep "invalid URL escape"
    | Some key =>
        match QueryUnescape value with
        | None => keep "invalid URL escape"
        | Some value => (<[key := default [] (m !! key) ++ [value]]> m, err)
        end
    end.

(** [url.ParseQuery]: the loop cuts the query at each [&] in turn, which
    visits the pieces of [Split] in order. *)
Definition ParseQuery (query : string) : url.Values * option string :=
  foldl parseStep (∅, None) (gostrings.Split query "&").

(** A string without the byte [c]. *)
Definition free_of (c : ascii) (s : string) : Prop := c ∉ list_ascii_of_string s.
(** A parameter that is set under a condition, as a pair. *)
Definition optPair (cond : bool) (key value : string) : list (string * string) :=
  if cond then [(key, value)] else [].

(** ** The documents the handlers write *)

(** The keys of a JSON object, in the order they are written. *)
Definition objectKeys (v : json) : list string :=
  match v with
  | JObject fields => fields.*1
  | _ => []
  end.

(** Every object of a document, at every depth, has its keys in ascending
    order. *)
Fixpoint keysSorted (v : json) : Prop :=
  match v with
  | JArray elems =>
      (fix all (l : list json) : Prop :=
         match l with
         | [] => True
         | x :: l' => keysSorted x ∧ all l'
         end) elems
  | JObject fields =>
      Sorted String.le fields.*1
      ∧ (fix all (l : list (string * json)) : Prop :=
           match l with
           | [] => True
           | kv :: l' => keysSorted kv.2 ∧ all l'
           end) fields
  | _ => True
  end.

(** The two handlers that return the whole response, each with the
    function that builds its parameters. *)
Definition fullResponseTools `{!GoLib} (c : SearXNGClient)
  : list ((mcp.CallToolRequest → Net mcp.CallToolResult)
          * (string → gmap string value → SearchParams)) :=
  [(searxngImageSearchHandler c, searxngImageSearchParams);
   (searxngNewsSearchHandler c, searxngNewsSearchParams)].

(** A backend's [/config] payload with nested maps, their entries out of
    order. *)
Definition sampleConfig : gmap string value :=
  <["engines" := VMap [("google", VMap []); ("bing", VMap [("shortcut", VString "bi")])]]>
    (<["categories" := VArray [VString "general"; VString "images"]]> ∅).

Definition configLib : GoLib :=
  {| url_Parse_error := λ _, None;
     Unmarshal_SearchResponse := λ _, Ok catsResponse;
     Unmarshal_config := λ _, Ok (Some sampleConfig);
     floatEncoder := λ _, "0" |}.
(** A response whose one result has a NaN for its score, and a library that
    decodes every body to it. *)
Definition nanResponse : SearchResponse :=
  {| SearchResponse.Query := "cats";
     SearchResponse.NumberOfResults := 1;
     SearchResponse.Results :=
       Some [{| SearchResult.Title := "T"; SearchResult.URL := "U";
                SearchResult.Content := "C"; SearchResult.Engine := "google";
                SearchResult.Category := "general";
                SearchResult.Score := S754_nan;
                SearchResult.PublishedDate := EmptyString |}];
     SearchResponse.Answers := [];
     SearchResponse.Corrections := [];
     SearchResponse.Infoboxes := [];
     SearchResponse.Suggestions := [] |}.

Definition nanLib : GoLib :=
  {| url_Parse_error := λ _, None;
     Unmarshal_SearchResponse := λ _, Ok nanResponse;
     Unmarshal_config := λ _, Ok None;
     floatEncoder := λ _, "0" |}.

(** The language a handler uses: the argument when it is a non-empty
    string, [en] otherwise. *)
Definition languageOf (arg : option string) : string :=
  match arg with
  | Some s => if bool_decide (s ≠ EmptyString) then s else "en"
  | None => "en"
  end.

Definition textArgs : gmap string value :=
  <["language" := VString EmptyString]>
    (<["time_range" := VString "fortnight"]> catsArgs).

(** A library that rejects the URL [%], as [url.Parse] does, and accepts
    every other one. *)
Definition strictLib : GoLib :=
  {| url_Parse_error := λ u, if String.eqb u "%" then Some "invalid URL escape" else None;
     Unmarshal_SearchResponse := λ _, Ok catsResponse;
     Unmarshal_config := λ _, Ok (Some ∅);
     floatEncoder := λ _, "0" |}.

(** A backend that answers a request for [/config] with a 404 without a
    body, and every other request with a 503 and the body [busy]. *)
Definition failingBackend : Backend :=
  λ req,
    if String.eqb (http.URL req) (BaseURL stubClient +:+ "/config")
    then Ok {| http.StatusCode := 404;
               http.RespBody := {| http.read := EmptyString; http.readErr := None |} |}
    else Ok {| http.StatusCode := 503;
               http.RespBody := {| http.read := "busy"; http.readErr := None |} |}.

Definition failingWorld : World :=
  {| backend := failingBackend; order := reversed_order |}.

(** * Properties *)

(** ** The models of the library functions *)

Lemma append_assoc (a b c : string) : (a +:+ b) +:+ c = a +:+ b +:+ c.
Proof.
  induction a as [|x a IH]; [done|].
  change (String x ((a +:+ b) +:+ c) = String x (a +:+ b +:+ c)). by f_equal.
Qed.

Lemma append_empty_r (a : string) : a +:+ EmptyString = a.
Proof.
  induction a as [|x a IH]; [done|].
  change (String x (a +:+ EmptyString) = String x a). by f_equal.
Qed.

Lemma rev_app_append (s t : string) : String.rev_app s t = String.rev s +:+ t.
Proof.
  revert t. induction s as [|x s IH]; intros t; [done|].
  unfold String.rev. simpl. rewrite (IH (String x t)), (IH (String x EmptyString)).
  by rewrite append_assoc.
Qed.

Lemma rev_cons (x : ascii) (s : string) :
  String.rev (String x s) = String.rev s +:+ String x EmptyString.
Proof. unfold String.rev at 1. simpl. apply rev_app_append. Qed.

Lemma Join_cons (x : string) (rest : list string) (sep : string) :
  rest ≠ [] → gostrings.Join (x :: rest) sep = x +:+ sep +:+ gostrings.Join rest sep.
Proof. by destruct rest. Qed.

Lemma split_go_not_nil (sep : string) (skip : nat) (cur s : string) :
  gostrings.split_go sep skip cur s ≠ [].
Proof.
  revert skip cur. induction s as [|x s IH]; intros skip cur; simpl; [done|].
  destruct skip; [|apply IH].
  match goal with |- (if ?b then _ else _) ≠ _ => destruct b end; [done|apply IH].
Qed.

Lemma prefix_comma (x : ascii) (s : string) :
  String.prefix "," (String x s) = bool_decide (x = ","%char).
Proof.
  cbn [String.prefix]. destruct (ascii_dec "," x) as [<-|Hne].
  - by destruct s.
  - symmetry. apply bool_decide_eq_false_2. congruence.
Qed.

(** Splitting on the comma loses nothing: the pieces joined by commas are
    the string again. *)
Lemma split_go_Join (cur s : string) :
  gostrings.Join (gostrings.split_go "," 0 cur s) "," = String.rev cur +:+ s.
Proof.
  revert cur. induction s as [|x s IH]; intros cur.
  - simpl. by rewrite append_empty_r.
  - change (gostrings.split_go "," 0 cur (String x s))
      with (if String.prefix "," (String x s)
            then String.rev cur :: gostrings.split_go "," 0 EmptyString s
            else gostrings.split_go "," 0 (String x cur) s).
    rewrite prefix_comma. destruct (bool_decide_reflect (x = ","%char)) as [->|Hx].
    + rewrite Join_cons by apply split_go_not_nil. by rewrite IH.
    + rewrite IH, rev_cons. by rewrite append_assoc.
Qed.

Lemma Split_Join (s : string) : gostrings.Join (gostrings.Split s ",") "," = s.
Proof. apply (split_go_Join EmptyString s). Qed.

(** No piece of a split holds a comma. *)
Lemma comma_free_snoc (s : string) (x : ascii) :
  comma_free s → x ≠ ","%char → comma_free (s +:+ String x EmptyString).
Proof.
  unfold comma_free. induction s as [|y s IH]; simpl; intros Hs Hx.
  - intros [E|E]%elem_of_cons; [by destruct Hx|by apply elem_of_nil in E].
  - apply not_elem_of_cons in Hs as [Hy Hs].
    apply not_elem_of_cons. split; [done|]. by apply IH.
Qed.

Lemma split_go_comma_free (cur s : string) :
  comma_free (String.rev cur) →
  Forall comma_free (gostrings.split_go "," 0 cur s).
Proof.
  revert cur. induction s as [|x s IH]; intros cur Hcur.
  - by repeat constructor.
  - change (gostrings.split_go "," 0 cur (String x s))
      with (if String.prefix "," (String x s)
            then String.rev cur :: gostrings.split_go "," 0 EmptyString s
            else gostrings.split_go "," 0 (String x cur) s).
    rewrite prefix_comma. destruct (bool_decide_reflect (x = ","%char)) as [->|Hx].
    + constructor; [done|]. apply IH. unfold comma_free. simpl. apply not_elem_of_nil.
    + apply IH. rewrite rev_cons. by apply comma_free_snoc.
Qed.

Lemma Split_comma_free (s : string) : Forall comma_free (gostrings.Split s ",").
Proof.
  apply (split_go_comma_free EmptyString s).
  unfold comma_free. simpl. apply not_elem_of_nil.
Qed.

(** [TrimSpace] drops the white space of Unicode at both ends, and only
    there: ASCII blanks, a no-break space (C2 A0) in front, an ideographic
    space (E3 80 80) behind. *)
Example TrimSpace_example :
  gostrings.TrimSpace
    (bytes [9; 32; 194; 160] +:+ "a  b" +:+ bytes [227; 128; 128; 13; 10])%N
  = "a  b".
Proof. by vm_compute. Qed.

(** A byte that is no complete space is kept. *)
Example TrimSpace_keeps_bytes :
  gostrings.TrimSpace (bytes [194] +:+ " x " +:+ bytes [160])%N
  = (bytes [194] +:+ " x " +:+ bytes [160])%N.
Proof. by vm_compute. Qed.

(** The comma of a joined list is escaped in the text of the query string. *)
Example Encode_categories :
  url.Encode canonical_order
    (url.Set_ ∅ "categories" (gostrings.Join ["general"; "news"] ","))
  = "categories=general%2Cnews".
Proof. by vm_compute. Qed.

(** ** Sorting the keys of a map *)

Lemma sortKeys_perm (l1 l2 : list string) :
  l1 ≡ₚ l2 → sortKeys l1 = sortKeys l2.
Proof.
  intros Hp. unfold sortKeys.
  apply (Sorted_unique String.le); [apply Sorted_merge_sort, _ ..|].
  by rewrite !merge_sort_Permutation.
Qed.

Lemma sortKeys_range {V : Type} (ord : MapOrder) (m : gmap string V) :
  sortKeys (range ord m).*1 = sortKeys (map_to_list m).*1.
Proof. apply sortKeys_perm, fmap_Permutation, range_perm. Qed.

Global Instance key_le_trans {V : Type} : Transitive (@key_le V).
Proof. intros a b c. unfold key_le. apply transitivity. Qed.

Global Instance key_le_total {V : Type} : Total (@key_le V).
Proof. intros a b. unfold key_le. apply total, _. Qed.

Lemma same_key_same_entry {V : Type} (l : list (string * V)) (a b : string * V) :
  NoDup l.*1 → a ∈ l → b ∈ l → a.1 = b.1 → a = b.
Proof.
  intros Hnd Ha Hb Hk. induction l as [|c l IH]; [by apply elem_of_nil in Ha|].
  rewrite fmap_cons in Hnd. apply NoDup_cons in Hnd as [Hc Hnd].
  apply elem_of_cons in Ha as [->|Ha]; apply elem_of_cons in Hb as [->|Hb]; auto.
  - exfalso. apply Hc. rewrite Hk. by apply list_elem_of_fmap_2.
  - exfalso. apply Hc. rewrite <- Hk. by apply list_elem_of_fmap_2.
Qed.

(** Entries with distinct keys have one sorted arrangement only. *)
Lemma sortByKey_perm {V : Type} (l1 l2 : list (string * V)) :
  NoDup l1.*1 → l1 ≡ₚ l2 → sortByKey l1 = sortByKey l2.
Proof.
  intros Hnd Hp. unfold sortByKey.
  apply (StronglySorted_unique_strong key_le).
  - intros a b Ha Hb Hab Hba.
    rewrite merge_sort_Permutation in Ha.
    rewrite merge_sort_Permutation, <- Hp in Hb.
    apply (same_key_same_entry l1); [done..|].
    by apply (anti_symm String.le).
  - apply StronglySorted_merge_sort; apply _.
  - apply StronglySorted_merge_sort; apply _.
  - by rewrite !merge_sort_Permutation.
Qed.

Lemma sortByKey_range {V : Type} (ord : MapOrder) (m : gmap string V) :
  sortByKey (range ord m) = sortByKey (map_to_list m).
Proof.
  symmetry. apply sortByKey_perm.
  - apply NoDup_fst_map_to_list.
  - symmetry. apply range_perm.
Qed.

Lemma sortByKey_keys {V : Type} (l : list (string * V)) :
  (sortByKey l).*1 = sortKeys l.*1.
Proof.
  unfold sortByKey, sortKeys.
  apply (Sorted_unique String.le).
  - apply (Sorted_fmap _ key_le String.le); [done|]. apply Sorted_merge_sort, _.
  - apply Sorted_merge_sort, _.
  - by rewrite !merge_sort_Permutation.
Qed.

Lemma StronglySorted_filter {A : Type} (R : relation A) (P : A → Prop)
    `{∀ x, Decision (P x)} (l : list A) :
  StronglySorted R l → StronglySorted R (filter P l).
Proof.
  induction 1 as [|x l Hl IH Hx]; [constructor|].
  rewrite filter_cons. destruct (decide (P x)); [|done].
  constructor; [done|].
  rewrite Forall_forall in Hx |- *.
  intros y Hy. apply list_elem_of_filter in Hy as [_ Hy]. auto.
Qed.

(** The sorted keys of a map, read off any strictly sorted list that covers
    them. *)
Lemma sortKeys_filter {V : Type} (m : gmap string V) (keys : list string) :
  Sorted String.le keys → NoDup keys →
  (∀ k, is_Some (m !! k) → k ∈ keys) →
  sortKeys (map_to_list m).*1 = filter (λ k, is_Some (m !! k)) keys.
Proof.
  intros Hs Hnd Hcover. unfold sortKeys.
  apply (Sorted_unique String.le).
  - apply Sorted_merge_sort, _.
  - apply StronglySorted_Sorted, StronglySorted_filter.
    by apply Sorted_StronglySorted; [apply _|].
  - rewrite merge_sort_Permutation.
    apply NoDup_Permutation.
    + apply NoDup_fst_map_to_list.
    + by apply NoDup_filter.
    + intros k. rewrite list_elem_of_filter, list_elem_of_fmap. split.
      * intros [[k' x] [-> Hin]]. apply elem_of_map_to_list in Hin.
        simpl. split; [eauto|]. apply Hcover. eauto.
      * intros [[x Hx] _]. exists (k, x). split; [done|].
        by apply elem_of_map_to_list.
Qed.

Lemma bind_filter_nil {A B : Type} (P : A → Prop) `{∀ x, Decision (P x)}
    (f : A → list B) (l : list A) :
  (∀ x, ¬ P x → f x = []) → filter P l ≫= f = l ≫= f.
Proof.
  intros Hf. induction l as [|x l IH]; [done|].
  rewrite filter_cons. destruct (decide (P x)) as [Hx|Hx]; rewrite !bind_cons.
  - by rewrite IH.
  - by rewrite IH, (Hf x Hx).
Qed.

(** ** The query string *)

(** [Encode] does not depend on the iteration order, and lists the keys of
    any strictly sorted list that covers the map, each with its values. *)
Lemma Encode_over (ord : MapOrder) (v : url.Values) (keys : list string) :
  Sorted String.le keys → NoDup keys →
  (∀ k, is_Some (v !! k) → k ∈ keys) →
  url.Encode ord v
  = gostrings.Join (k ← keys; pair_text k <$> default [] (v !! k)) "&".
Proof.
  intros Hs Hnd Hcover. unfold url.Encode. cbv zeta.
  rewrite sortKeys_range, (sortKeys_filter v keys) by done.
  f_equal. apply bind_filter_nil.
  intros k Hk. destruct (v !! k) eqn:E; [|done].
  exfalso. apply Hk. eauto.
Qed.

Lemma Encode_order (ord1 ord2 : MapOrder) (v : url.Values) :
  url.Encode ord1 v = url.Encode ord2 v.
Proof. unfold url.Encode. cbv zeta. by rewrite !sortKeys_range. Qed.

Lemma lookup_set_if_eq cond key value v :
  set_if cond key value v !! key
  = if cond then Some [value] else v !! key.
Proof. unfold set_if, url.Set_. destruct cond; [apply lookup_insert_eq|done]. Qed.

Lemma lookup_set_if_ne cond key value v k :
  key ≠ k → set_if cond key value v !! k = v !! k.
Proof. unfold set_if, url.Set_. destruct cond; [apply lookup_insert_ne|done]. Qed.

Lemma lookup_set_if_Some cond key value v k :
  is_Some (set_if cond key value v !! k) → k = key ∨ is_Some (v !! k).
Proof.
  destruct (decide (key = k)) as [->|Hne]; [by left|].
  rewrite lookup_set_if_ne by done. by right.
Qed.

Lemma nonEmpty_decide (s : string) : nonEmpty s = bool_decide (s ≠ EmptyString).
Proof.
  unfold nonEmpty. symmetry.
  destruct (String.eqb_spec s EmptyString) as [->|Hne].
  - apply bool_decide_eq_false_2. intros E. by apply E.
  - by apply bool_decide_eq_true_2.
Qed.

Lemma length_pos_decide {A : Type} (l : list A) :
  bool_decide (0 < length l)%nat = bool_decide (l ≠ []).
Proof.
  apply bool_decide_ext. destruct l; simpl; split; try done; lia.
Qed.

Lemma range_decide (z : Z) :
  bool_decide (0 <= z) && bool_decide (z <= 2) = bool_decide (0 <= z ∧ z <= 2).
Proof. symmetry. apply bool_decide_and. Qed.

(** [searchValues], one conditional [Set] after the other. *)
Lemma searchValues_steps (params : SearchParams) :
  searchValues params
  = set_if (bool_decide (0 <= SearchParams.SafeSearch params ∧ SearchParams.SafeSearch params <= 2))
      "safesearch" (strconv.Itoa (SearchParams.SafeSearch params))
      (set_if (bool_decide (SearchParams.TimeRange params ≠ EmptyString))
         "time_range" (SearchParams.TimeRange params)
         (set_if (bool_decide (0 < SearchParams.PageNo params))
            "pageno" (strconv.Itoa (SearchParams.PageNo params))
            (set_if (bool_decide (SearchParams.Language params ≠ EmptyString))
               "language" (SearchParams.Language params)
               (set_if (bool_decide (SearchParams.Engines params ≠ []))
                  "engines" (gostrings.Join (SearchParams.Engines params) ",")
                  (set_if (bool_decide (SearchParams.Categories params ≠ []))
                     "categories" (gostrings.Join (SearchParams.Categories params) ",")
                     (set_if true "format" "json"
                        (set_if true "q" (SearchParams.Query params) ∅))))))).
Proof.
  pose proof nonEmpty_decide as E. unfold nonEmpty in E.
  unfold searchValues. cbv zeta.
  by rewrite !length_pos_decide, !E, range_decide.
Qed.

Lemma queryKeys_sorted : Sorted String.le queryKeys ∧ NoDup queryKeys.
Proof.
  split.
  - apply (bool_decide_unpack (Sorted String.le queryKeys)). by vm_compute.
  - apply (bool_decide_unpack (NoDup queryKeys)). by vm_compute.
Qed.

(** What [searchValues] holds under each key. *)
Lemma searchValues_lookup (params : SearchParams) :
  let v := searchValues params in
  let cats := SearchParams.Categories params in
  let engs := SearchParams.Engines params in
  let lang := SearchParams.Language params in
  let page := SearchParams.PageNo params in
  let time := SearchParams.TimeRange params in
  let safe := SearchParams.SafeSearch params in
  v !! "q" = Some [SearchParams.Query params]
  ∧ v !! "format" = Some ["json"]
  ∧ v !! "categories" = included (bool_decide (cats ≠ [])) (gostrings.Join cats ",")
  ∧ v !! "engines" = included (bool_decide (engs ≠ [])) (gostrings.Join engs ",")
  ∧ v !! "language" = included (bool_decide (lang ≠ EmptyString)) lang
  ∧ v !! "pageno" = included (bool_decide (0 < page)) (strconv.Itoa page)
  ∧ v !! "time_range" = included (bool_decide (time ≠ EmptyString)) time
  ∧ v !! "safesearch" = included (bool_decide (0 <= safe ∧ safe <= 2)) (strconv.Itoa safe).
Proof.
  intros v cats engs lang page time safe.
  subst v. rewrite searchValues_steps. fold cats engs lang page time safe.
  unfold included.
  repeat split;
    repeat first [ rewrite lookup_set_if_eq
                 | rewrite lookup_set_if_ne by discriminate ];
    try done; by destruct (bool_decide _).
Qed.

Lemma searchValues_cover (params : SearchParams) (k : string) :
  is_Some (searchValues params !! k) → k ∈ queryKeys.
Proof.
  rewrite searchValues_steps. intros Hk. unfold queryKeys.
  repeat (apply lookup_set_if_Some in Hk as [->|Hk]; [in_list|]).
  rewrite lookup_empty in Hk. by destruct Hk.
Qed.

(** The text of the query string: the pairs that are set, in key order. *)
Lemma Encode_searchValues (ord : MapOrder) (params : SearchParams) :
  let cats := SearchParams.Categories params in
  let engs := SearchParams.Engines params in
  let lang := SearchParams.Language params in
  let page := SearchParams.PageNo params in
  let time := SearchParams.TimeRange params in
  let safe := SearchParams.SafeSearch params in
  url.Encode ord (searchValues params)
  = gostrings.Join
      (param (bool_decide (cats ≠ [])) "categories" (gostrings.Join cats ",")
       ++ param (bool_decide (engs ≠ [])) "engines" (gostrings.Join engs ",")
       ++ param true "format" "json"
       ++ param (bool_decide (lang ≠ EmptyString)) "language" lang
       ++ param (bool_decide (0 < page)) "pageno" (strconv.Itoa page)
       ++ param true "q" (SearchParams.Query params)
       ++ param (bool_decide (0 <= safe ∧ safe <= 2)) "safesearch" (strconv.Itoa safe)
       ++ param (bool_decide (time ≠ EmptyString)) "time_range" time)
      "&".
Proof.
  intros cats engs lang page time safe.
  destruct queryKeys_sorted as [Hs Hnd].
  rewrite (Encode_over ord _ queryKeys Hs Hnd (searchValues_cover params)).
  destruct (searchValues_lookup params) as (Hq & Hf & Hc & He & Hl & Hp & Ht & Hss).
  unfold queryKeys. rewrite !bind_cons. change ([] ≫= _) with (@nil string).
  rewrite Hq, Hf, Hc, He, Hl, Hp, Ht, Hss.
  fold cats engs lang page time safe.
  unfold included, param.
  repeat match goal with |- context [bool_decide ?P] => destruct (bool_decide P) end;
    reflexivity.
Qed.

(** C1. The query string [Search] builds.  [q] and [format=json] are always
    set; [categories] and [engines] are set, to the comma-joined list, iff
    the list is not empty; [language] and [time_range] iff the string is not
    empty; [pageno] iff [PageNo > 0]; [safesearch] iff [0 <= SafeSearch <= 2]
    (so it is set for 0 and not for 3); nothing else is set.  The text is the
    [&]-joined list of exactly these pairs. *)
Theorem C1_query_string (ord : MapOrder) (params : SearchParams) :
  let v := searchValues params in
  let cats := SearchParams.Categories params in
  let engs := SearchParams.Engines params in
  let lang := SearchParams.Language params in
  let page := SearchParams.PageNo params in
  let time := SearchParams.TimeRange params in
  let safe := SearchParams.SafeSearch params in
  (v !! "q" = Some [SearchParams.Query params]
   ∧ v !! "format" = Some ["json"]
   ∧ v !! "categories" = included (bool_decide (cats ≠ [])) (gostrings.Join cats ",")
   ∧ v !! "engines" = included (bool_decide (engs ≠ [])) (gostrings.Join engs ",")
   ∧ v !! "language" = included (bool_decide (lang ≠ EmptyString)) lang
   ∧ v !! "pageno" = included (bool_decide (0 < page)) (strconv.Itoa page)
   ∧ v !! "time_range" = included (bool_decide (time ≠ EmptyString)) time
   ∧ v !! "safesearch" = included (bool_decide (0 <= safe ∧ safe <= 2)) (strconv.Itoa safe))
  ∧ (∀ k, is_Some (v !! k) → k ∈ queryKeys)
  ∧ url.Encode ord v
    = gostrings.Join
        (param (bool_decide (cats ≠ [])) "categories" (gostrings.Join cats ",")
         ++ param (bool_decide (engs ≠ [])) "engines" (gostrings.Join engs ",")
         ++ param true "format" "json"
         ++ param (bool_decide (lang ≠ EmptyString)) "language" lang
         ++ param (bool_decide (0 < page)) "pageno" (strconv.Itoa page)
         ++ param true "q" (SearchParams.Query params)
         ++ param (bool_decide (0 <= safe ∧ safe <= 2)) "safesearch" (strconv.Itoa safe)
         ++ param (bool_decide (time ≠ EmptyString)) "time_range" time)
        "&".
Proof.
  intros v cats engs lang page time safe. split; [|split].
  - apply searchValues_lookup.
  - apply searchValues_cover.
  - apply Encode_searchValues.
Qed.

(** The boundary of [safesearch]: 0 is sent, 3 is not. *)
Example safesearch_boundary (params : SearchParams) :
  searchValues (SearchParams.with_SafeSearch params 0) !! "safesearch" = Some ["0"]
  ∧ searchValues (SearchParams.with_SafeSearch params 3) !! "safesearch" = None.
Proof.
  split.
  - by destruct (searchValues_lookup (SearchParams.with_SafeSearch params 0))
      as (_ & _ & _ & _ & _ & _ & _ & ->).
  - by destruct (searchValues_lookup (SearchParams.with_SafeSearch params 3))
      as (_ & _ & _ & _ & _ & _ & _ & ->).
Qed.

(** ** One run of [Search] and of [GetEngines] *)

Section Runs.
Context `{!GoLib}.

Lemma Search_run (c : SearXNGClient) (params : SearchParams) (w : World) :
  Search c params w
  = match url_Parse_error (searchRequestURL (order w) c params) with
    | Some e => {| sent := []; res := Err ("error creating request: " +:+ e) |}
    | None =>
        {| sent := [searchRequest (order w) c params];
           res := searchAnswer (backend w (searchRequest (order w) c params)) |}
    end.
Proof.
  unfold Search, searchRequest, NewRequest, searchAnswer.
  unfold mbind, Net_bind, iteration, wrap, lift, Do, fail, mret, Net_ret. simpl.
  destruct (url_Parse_error _) as [e|]; simpl; [done|].
  destruct (backend w _) as [resp|e]; simpl; [|done].
  destruct (http.StatusCode resp =? http.StatusOK); simpl; [|done].
  destruct (ReadAll _) as [body|e]; simpl; [|done].
  by destruct (Unmarshal_SearchResponse body).
Qed.

(** [Search] does not depend on the iteration order of the run. *)
Lemma searchRequestURL_order (ord1 ord2 : MapOrder) c params :
  searchRequestURL ord1 c params = searchRequestURL ord2 c params.
Proof. unfold searchRequestURL. cbv zeta. by rewrite (Encode_order ord1 ord2). Qed.

Lemma Search_world (c : SearXNGClient) (params : SearchParams) (w1 w2 : World) :
  (∀ req, backend w1 req = backend w2 req) →
  Search c params w1 = Search c params w2.
Proof.
  intros Hb. rewrite !Search_run. unfold searchRequest.
  rewrite (searchRequestURL_order (order w1) (order w2)).
  by rewrite Hb.
Qed.

Lemma GetEngines_run (c : SearXNGClient) (w : World) :
  GetEngines c w
  = match url_Parse_error (BaseURL c +:+ "/config") with
    | Some e => {| sent := []; res := Err ("error creating request: " +:+ e) |}
    | None =>
        {| sent := [enginesRequest c];
           res := enginesAnswer (backend w (enginesRequest c)) |}
    end.
Proof.
  unfold GetEngines, enginesRequest, NewRequest, enginesAnswer.
  unfold mbind, Net_bind, iteration, wrap, lift, Do, fail, mret, Net_ret. simpl.
  destruct (url_Parse_error _) as [e|]; simpl; [done|].
  destruct (backend w _) as [resp|e]; simpl; [|done].
  destruct (http.StatusCode resp =? http.StatusOK); simpl; [|done].
  destruct (ReadAll _) as [body|e]; simpl; [|done].
  by destruct (Unmarshal_config body).
Qed.

End Runs.

(** ** One run of a handler *)

Section Handlers.
Context `{!GoLib}.
Variable c : SearXNGClient.

Lemma searxngSearchHandler_run (request : mcp.CallToolRequest) (w : World) :
  searxngSearchHandler c request w
  = let args := mcp.Arguments (mcp.Params request) in
    match as_string (args !! "query") with
    | None => inputError
    | Some query =>
        finish "search error: "
          (λ r, map_json (order w) (searxngSearchResponse r))
          (Search c (searxngSearchParams query args) w)
    end.
Proof.
  unfold searxngSearchHandler, finish, inputError. cbv zeta.
  destruct (as_string _) as [query|]; [|done].
  unfold mbind, Net_bind, iteration, wrap, lift, fail, mret, Net_ret.
  match goal with |- context [Search c ?p w] => destruct (Search c p w) as [rs [r|e]] end;
    simpl; [|done].
  destruct (MarshalIndent _ _ _) as [text|e]; simpl; by rewrite ?app_nil_r.
Qed.

Lemma searxngImageSearchHandler_run (request : mcp.CallToolRequest) (w : World) :
  searxngImageSearchHandler c request w
  = let args := mcp.Arguments (mcp.Params request) in
    match as_string (args !! "query") with
    | None => inputError
    | Some query =>
        finish "image search error: " SearchResponse_json
          (Search c (searxngImageSearchParams query args) w)
    end.
Proof.
  unfold searxngImageSearchHandler, finish, inputError. cbv zeta.
  destruct (as_string _) as [query|]; [|done].
  unfold mbind, Net_bind, iteration, wrap, lift, fail, mret, Net_ret.
  match goal with |- context [Search c ?p w] => destruct (Search c p w) as [rs [r|e]] end;
    simpl; [|done].
  destruct (MarshalIndent _ _ _) as [text|e]; simpl; by rewrite ?app_nil_r.
Qed.

Lemma searxngNewsSearchHandler_run (request : mcp.CallToolRequest) (w : World) :
  searxngNewsSearchHandler c request w
  = let args := mcp.Arguments (mcp.Params request) in
    match as_string (args !! "query") with
    | None => inputError
    | Some query =>
        finish "news search error: " SearchResponse_json
          (Search c (searxngNewsSearchParams query args) w)
    end.
Proof.
  unfold searxngNewsSearchHandler, finish, inputError. cbv zeta.
  destruct (as_string _) as [query|]; [|done].
  unfold mbind, Net_bind, iteration, wrap, lift, fail, mret, Net_ret.
  match goal with |- context [Search c ?p w] => destruct (Search c p w) as [rs [r|e]] end;
    simpl; [|done].
  destruct (MarshalIndent _ _ _) as [text|e]; simpl; by rewrite ?app_nil_r.
Qed.

End Handlers.

(** ** Arguments of the wrong type *)

Lemma as_string_delete (args : gmap string value) (k k' : string) (v : value) :
  args !! k = Some v → (k = k' → ∀ s, v ≠ VString s) →
  as_string (delete k args !! k') = as_string (args !! k').
Proof.
  intros Hk Hty. destruct (decide (k = k')) as [<-|Hne].
  - rewrite lookup_delete_eq, Hk. destruct v; try done.
    by destruct (Hty eq_refl s).
  - by rewrite lookup_delete_ne.
Qed.

Lemma as_float64_delete (args : gmap string value) (k k' : string) (v : value) :
  args !! k = Some v → (k = k' → ∀ f, v ≠ VNumber f) →
  as_float64 (delete k args !! k') = as_float64 (args !! k').
Proof.
  intros Hk Hty. destruct (decide (k = k')) as [<-|Hne].
  - rewrite lookup_delete_eq, Hk. destruct v; try done.
    by destruct (Hty eq_refl f).
  - by rewrite lookup_delete_ne.
Qed.

Lemma has_type_string_false (v : value) :
  has_type TString v = false → ∀ s, v ≠ VString s.
Proof. by intros H s ->. Qed.

Lemma has_type_number_false (v : value) :
  has_type TNumber v = false → ∀ f, v ≠ VNumber f.
Proof. by intros H f ->. Qed.

(** An optional argument of the wrong type is not seen by any of the
    lookups a handler makes. *)
Lemma wrong_type_unseen (args : gmap string value) (k : string) (t : argType) (v : value) :
  (k, t) ∈ optionalArgs → args !! k = Some v → has_type t v = false →
  as_string (delete k args !! "query") = as_string (args !! "query")
  ∧ (∀ k', (k', TString) ∈ optionalArgs →
       as_string (delete k args !! k') = as_string (args !! k'))
  ∧ (∀ k', (k', TNumber) ∈ optionalArgs →
       as_float64 (delete k args !! k') = as_float64 (args !! k')).
Proof.
  intros Hin Hk Hty. split; [|split].
  - apply (as_string_delete args k "query" v Hk). intros ->.
    unfold optionalArgs in Hin. exfalso.
    repeat (apply elem_of_cons in Hin as [Hin|Hin]; [discriminate Hin|]).
    by apply elem_of_nil in Hin.
  - intros k' Hin'. apply (as_string_delete args k k' v Hk). intros ->.
    assert (t = TString) as ->.
    { unfold optionalArgs in Hin, Hin'.
      repeat (apply elem_of_cons in Hin as [Hin|Hin];
              [injection Hin as -> ->; try done|]);
        try (by apply elem_of_nil in Hin);
        exfalso;
        repeat (apply elem_of_cons in Hin' as [Hin'|Hin']; [discriminate Hin'|]);
        by apply elem_of_nil in Hin'. }
    by apply has_type_string_false.
  - intros k' Hin'. apply (as_float64_delete args k k' v Hk). intros ->.
    assert (t = TNumber) as ->.
    { unfold optionalArgs in Hin, Hin'.
      repeat (apply elem_of_cons in Hin as [Hin|Hin];
              [injection Hin as -> ->; try done|]);
        try (by apply elem_of_nil in Hin);
        exfalso;
        repeat (apply elem_of_cons in Hin' as [Hin'|Hin']; [discriminate Hin'|]);
        by apply elem_of_nil in Hin'. }
    by apply has_type_number_false.
Qed.

(** The parameters a handler builds depend on its arguments only through
    the typed lookups of the optional arguments. *)
Lemma params_ext (query : string) (args1 args2 : gmap string value) :
  (∀ k, (k, TString) ∈ optionalArgs →
     as_string (args1 !! k) = as_string (args2 !! k)) →
  (∀ k, (k, TNumber) ∈ optionalArgs →
     as_float64 (args1 !! k) = as_float64 (args2 !! k)) →
  searxngSearchParams query args1 = searxngSearchParams query args2
  ∧ searxngImageSearchParams query args1 = searxngImageSearchParams query args2
  ∧ searxngNewsSearchParams query args1 = searxngNewsSearchParams query args2.
Proof.
  intros HS HN.
  assert (Hc := HS "categories" ltac:(unfold optionalArgs; in_list)).
  assert (He := HS "engines" ltac:(unfold optionalArgs; in_list)).
  assert (Hl := HS "language" ltac:(unfold optionalArgs; in_list)).
  assert (Ht := HS "time_range" ltac:(unfold optionalArgs; in_list)).
  assert (Hp := HN "page" ltac:(unfold optionalArgs; in_list)).
  assert (Hs := HN "safe_search" ltac:(unfold optionalArgs; in_list)).
  unfold searxngSearchParams, searxngImageSearchParams, searxngNewsSearchParams.
  cbv zeta. by rewrite Hc, He, Hl, Ht, Hp, Hs.
Qed.

(** C3. When [query] is absent or not a string, each of the three search
    handlers returns the input error and sends no request; and an optional
    argument present with a value of the wrong type changes nothing: the
    handler behaves as on the argument map without it. *)
Theorem C3_input_error_and_wrong_types `{!GoLib} (c : SearXNGClient)
    (name : string) (args : gmap string value) (w : World) :
  ((∀ s, args !! "query" ≠ Some (VString s)) →
   Forall (λ h, h (call name args) w = inputError) (searchHandlers c))
  ∧ (∀ k t v,
       (k, t) ∈ optionalArgs → args !! k = Some v → has_type t v = false →
       Forall (λ h, h (call name args) w = h (call name (delete k args)) w)
         (searchHandlers c)).
Proof.
  split.
  - intros Hq.
    assert (as_string (args !! "query") = None) as E.
    { destruct (args !! "query") as [[]|]; try done. by destruct (Hq s). }
    unfold searchHandlers. repeat constructor.
    + rewrite searxngSearchHandler_run. simpl. by rewrite E.
    + rewrite searxngImageSearchHandler_run. simpl. by rewrite E.
    + rewrite searxngNewsSearchHandler_run. simpl. by rewrite E.
  - intros k t v Hin Hk Hty.
    destruct (wrong_type_unseen args k t v Hin Hk Hty) as (Hq & HS & HN).
    assert (∀ query,
      searxngSearchParams query args = searxngSearchParams query (delete k args)
      ∧ searxngImageSearchParams query args = searxngImageSearchParams query (delete k args)
      ∧ searxngNewsSearchParams query args = searxngNewsSearchParams query (delete k args))
      as Hparams.
    { intros query. apply params_ext; intros k' Hk'; symmetry; auto. }
    unfold searchHandlers. repeat constructor.
    + rewrite !searxngSearchHandler_run. simpl. rewrite Hq.
      destruct (as_string (args !! "query")) as [query|]; [|done].
      by destruct (Hparams query) as (-> & _ & _).
    + rewrite !searxngImageSearchHandler_run. simpl. rewrite Hq.
      destruct (as_string (args !! "query")) as [query|]; [|done].
      by destruct (Hparams query) as (_ & -> & _).
    + rewrite !searxngNewsSearchHandler_run. simpl. rewrite Hq.
      destruct (as_string (args !! "query")) as [query|]; [|done].
      by destruct (Hparams query) as (_ & _ & ->).
Qed.

(** C3 at [{query: 0}], where [query] is a number, and at
    [{query: "cats", categories: 0, page: "2"}], where [categories] is a
    number and [page] a string. *)
Lemma C3_witness :
  Forall (λ h, h (call "searxng_search" {[ "query" := VNumber zero ]})
                 (stubWorld 200 "{}" canonical_order) = inputError)
    (@searchHandlers stubLib stubClient)
  ∧ Forall (λ h,
      h (call "searxng_search"
           (<["categories" := VNumber zero]>
              (<["page" := VString "2"]> {[ "query" := VString "cats" ]})))
        (stubWorld 200 "{}" canonical_order)
      = h (call "searxng_search"
             (delete "categories"
                (<["categories" := VNumber zero]>
                   (<["page" := VString "2"]> {[ "query" := VString "cats" ]}))))
          (stubWorld 200 "{}" canonical_order))
    (@searchHandlers stubLib stubClient).
Proof.
  split.
  - apply (@C3_input_error_and_wrong_types stubLib).
    intros s. vm_compute. discriminate.
  - apply (proj2 (@C3_input_error_and_wrong_types stubLib stubClient "searxng_search"
                    (<["categories" := VNumber zero]>
                       (<["page" := VString "2"]> {[ "query" := VString "cats" ]}))
                    (stubWorld 200 "{}" canonical_order))
             "categories" TString (VNumber zero)).
    + unfold optionalArgs. in_list.
    + reflexivity.
    + reflexivity.
Defined.

(** ** The base URL *)

Lemma length_snoc (b : string) (x : ascii) :
  String.length (b +:+ String x EmptyString) = S (String.length b).
Proof. induction b as [|y b IH]; simpl; [done|]. by rewrite IH. Qed.

Lemma substring_snoc_last (b : string) (x : ascii) :
  substring (String.length b) 1 (b +:+ String x EmptyString) = String x EmptyString.
Proof. induction b as [|y b IH]; simpl; [done|]. by rewrite IH. Qed.

Lemma substring_snoc_front (b : string) (x : ascii) :
  substring 0 (String.length b) (b +:+ String x EmptyString) = b.
Proof. induction b as [|y b IH]; simpl; [done|]. by rewrite IH. Qed.

Lemma string_snoc_cases (b : string) :
  b = EmptyString ∨ ∃ b' x, b = b' +:+ String x EmptyString.
Proof.
  induction b as [|y b IH]; [by left|]. right.
  destruct IH as [->|(b' & x & ->)].
  - by exists EmptyString, y.
  - by exists (String y b'), x.
Qed.

Lemma HasSuffix_snoc (b : string) (x : ascii) :
  gostrings.HasSuffix (b +:+ String x EmptyString) "/" = Ascii.eqb x "/".
Proof.
  unfold gostrings.HasSuffix. cbv zeta. rewrite length_snoc.
  change (String.length "/") with 1%nat.
  replace (S (String.length b) - 1)%nat with (String.length b) by lia.
  rewrite substring_snoc_last. simpl. by destruct (Ascii.eqb x "/").
Qed.

Lemma TrimSuffix_slash (b : string) : gostrings.TrimSuffix (b +:+ "/") "/" = b.
Proof.
  unfold gostrings.TrimSuffix. rewrite HasSuffix_snoc. simpl.
  rewrite length_snoc.
  replace (S (String.length b) - 1)%nat with (String.length b) by lia.
  apply substring_snoc_front.
Qed.

Lemma TrimSuffix_no_slash (b : string) :
  (∀ b', b ≠ b' +:+ "/") → gostrings.TrimSuffix b "/" = b.
Proof.
  intros Hb. unfold gostrings.TrimSuffix.
  destruct (string_snoc_cases b) as [->|(b' & x & ->)]; [done|].
  rewrite HasSuffix_snoc. destruct (Ascii.eqb_spec x "/") as [->|Hx]; [|done].
  by destruct (Hb b').
Qed.

Lemma Search_requests `{!GoLib} (c : SearXNGClient) (params : SearchParams) (w : World) :
  let U := BaseURL c +:+ "/search?" +:+ url.Encode canonical_order (searchValues params) in
  http.URL <$> sent (Search c params w) = requested U (url_Parse_error U)
  ∧ http.Method <$> sent (Search c params w) = requested "GET" (url_Parse_error U).
Proof.
  intros U. rewrite Search_run. unfold searchRequest.
  assert (searchRequestURL (order w) c params = U) as ->.
  { unfold searchRequestURL. cbv zeta.
    by rewrite (Encode_order (order w) canonical_order), append_assoc. }
  by destruct (url_Parse_error U).
Qed.

Lemma GetEngines_requests `{!GoLib} (c : SearXNGClient) (w : World) :
  let U := BaseURL c +:+ "/config" in
  http.URL <$> sent (GetEngines c w) = requested U (url_Parse_error U)
  ∧ http.Method <$> sent (GetEngines c w) = requested "GET" (url_Parse_error U).
Proof.
  intros U. rewrite GetEngines_run. fold U.
  by destruct (url_Parse_error U).
Qed.

(** C10. [NewSearXNGClient] strips one trailing slash from the base URL:
    built from [b/] the client holds [b], and requests [b/search?...] in
    [Search] and [b/config] in [GetEngines]; and a base URL [b] that does not
    end in a slash gives the same client as [b/]. *)
Theorem C10_base_url `{!GoLib} (b : string) (params : SearchParams) (w : World) :
  let c := NewSearXNGClient (b +:+ "/") in
  let S := b +:+ "/search?" +:+ url.Encode canonical_order (searchValues params) in
  let E := b +:+ "/config" in
  BaseURL c = b
  ∧ ((∀ b', b ≠ b' +:+ "/") → NewSearXNGClient b = c)
  ∧ http.URL <$> sent (Search c params w) = requested S (url_Parse_error S)
  ∧ http.URL <$> sent (GetEngines c w) = requested E (url_Parse_error E).
Proof.
  intros c S E.
  assert (BaseURL c = b) as Hc by apply TrimSuffix_slash.
  split; [done|]. split; [|split].
  - intros Hb. unfold c, NewSearXNGClient.
    by rewrite TrimSuffix_slash, TrimSuffix_no_slash.
  - destruct (Search_requests c params w) as [HU _]. by rewrite Hc in HU.
  - destruct (GetEngines_requests c w) as [HU _]. by rewrite Hc in HU.
Qed.

Lemma no_trailing_slash_example : ∀ b', "http://127.0.0.1:8080" ≠ b' +:+ "/".
Proof.
  intros b' E.
  assert (gostrings.HasSuffix "http://127.0.0.1:8080" "/" = true) as H.
  { rewrite E. rewrite HasSuffix_snoc. done. }
  vm_compute in H. discriminate H.
Qed.

(** C10 at the default base URL, with and without the slash. *)
Lemma C10_witness :
  NewSearXNGClient "http://127.0.0.1:8080" = NewSearXNGClient "http://127.0.0.1:8080/".
Proof.
  apply (proj1 (proj2 (@C10_base_url stubLib "http://127.0.0.1:8080"
                         (searxngSearchParams "cats" ∅)
                         (stubWorld 200 "{}" canonical_order)))).
  apply no_trailing_slash_example.
Defined.

(** ** The general search with [query] alone *)

(** The handler leaves [SafeSearch] at 0 when the argument is absent, and 0
    is within the range [Search] sends: the query string of the scenario
    carries a sixth parameter, [safesearch=0]. *)
Lemma C4_counterexample :
  searchValues (searxngSearchParams "cats" catsArgs) !! "safesearch" = Some ["0"]
  ∧ url.Encode canonical_order (searchValues (searxngSearchParams "cats" catsArgs))
    = "categories=general&engines=google&format=json&language=en&q=cats&safesearch=0".
Proof. split; by vm_compute. Qed.

Lemma catsArgs_query :
  url.Encode canonical_order (searchValues (searxngSearchParams "cats" catsArgs))
  = "categories=general&engines=google&format=json&language=en&q=cats&safesearch=0".
Proof. by vm_compute. Qed.

Lemma catsArgs_values :
  searchValues (searxngSearchParams "cats" catsArgs)
  = <["safesearch" := ["0"]]>
      (<["language" := ["en"]]>
         (<["engines" := ["google"]]>
            (<["categories" := ["general"]]>
               (<["format" := ["json"]]> (<["q" := ["cats"]]> ∅))))).
Proof. by vm_compute. Qed.

(** C4, as the code has it.  A general-search call with [{query: "cats"}] and nothing
    else sends one GET request, to [{base}/search], whose query string
    consists exactly of [q=cats], [format=json], [categories=general],
    [engines=google], [language=en] and [safesearch=0]. *)
Theorem C4_cats_request `{!GoLib} (c : SearXNGClient) (name : string) (w : World) :
  let U := BaseURL c
           +:+ "/search?categories=general&engines=google&format=json&language=en&q=cats&safesearch=0" in
  dom (searchValues (searxngSearchParams "cats" catsArgs))
  = {[ "q"; "format"; "categories"; "engines"; "language"; "safesearch" ]}
  ∧ http.URL <$> sent (searxngSearchHandler c (call name catsArgs) w)
    = requested U (url_Parse_error U)
  ∧ http.Method <$> sent (searxngSearchHandler c (call name catsArgs) w)
    = requested "GET" (url_Parse_error U).
Proof.
  intros U. split.
  - rewrite catsArgs_values. rewrite !dom_insert_L, dom_empty_L. set_solver.
  - rewrite searxngSearchHandler_run. simpl.
    change (as_string (catsArgs !! "query")) with (Some "cats").
    unfold finish. simpl.
    pose proof (Search_requests c (searxngSearchParams "cats" catsArgs) w) as HS.
    cbv zeta in HS. by rewrite catsArgs_query in HS.
Qed.

(** ** [GetEngines] on a status other than 200 *)

(** C6.  On a 500 answer [GetEngines] fails with [HTTP error 500] whatever
    the body says, where [Search] fails with [HTTP error 500: ] followed by
    the body. *)
Theorem C6_GetEngines_error_without_body (body : string) (ord : MapOrder)
    (params : SearchParams) :
  res (@GetEngines stubLib stubClient (stubWorld 500 body ord))
  = Err "HTTP error 500"
  ∧ res (@Search stubLib stubClient params (stubWorld 500 body ord))
    = Err ("HTTP error 500: " +:+ body).
Proof.
  split.
  - by rewrite GetEngines_run.
  - by rewrite Search_run.
Qed.

(** ** The image search *)

Lemma image_insert_unseen (query k : string) (v : value) (args : gmap string value) :
  k ≠ "engines" → k ≠ "page" →
  searxngImageSearchParams query (<[k := v]> args) = searxngImageSearchParams query args
  ∧ searxngImageSearchParams query (delete k args) = searxngImageSearchParams query args.
Proof.
  intros He Hp. unfold searxngImageSearchParams. cbv zeta.
  by rewrite !lookup_insert_ne, !lookup_delete_ne.
Qed.

(** C7. The image-search handler reads [engines] and [page] only: setting
    or removing a [categories], [language], [time_range] or [safe_search]
    argument changes neither the [SearchParams] it builds nor what it does.
    The categories are always [["images"]], the engines are
    [["google images"]] unless [engines] is a non-empty string, and the time
    range is empty, so that no [time_range] is sent. *)
Theorem C7_image_search_params `{!GoLib} (c : SearXNGClient) (name query : string)
    (args : gmap string value) (v : value) (w : World) :
  let p := searxngImageSearchParams query args in
  SearchParams.Categories p = ["images"]
  ∧ SearchParams.Engines p
    = match as_string (args !! "engines") with
      | Some engines => if nonEmpty engines then splitTrim engines else ["google images"]
      | None => ["google images"]
      end
  ∧ SearchParams.TimeRange p = EmptyString
  ∧ searchValues p !! "time_range" = None
  ∧ SearchParams.Language p = "en"
  ∧ SearchParams.SafeSearch p = 0
  ∧ Forall (λ k,
      searxngImageSearchParams query (<[k := v]> args) = p
      ∧ searxngImageSearchParams query (delete k args) = p
      ∧ searxngImageSearchHandler c (call name (<[k := v]> args)) w
        = searxngImageSearchHandler c (call name args) w)
      imageIgnored.
Proof.
  intros p.
  assert (SearchParams.TimeRange p = EmptyString) as Ht.
  { unfold p, searxngImageSearchParams. cbv zeta. by repeat case_match. }
  split; [|split; [|split; [|split; [|split; [|split]]]]].
  - unfold p, searxngImageSearchParams. cbv zeta. by repeat case_match.
  - unfold p, searxngImageSearchParams. cbv zeta. by repeat case_match.
  - done.
  - destruct (searchValues_lookup p) as (_ & _ & _ & _ & _ & _ & -> & _).
    by rewrite Ht.
  - unfold p, searxngImageSearchParams. cbv zeta. by repeat case_match.
  - unfold p, searxngImageSearchParams. cbv zeta. by repeat case_match.
  - apply Forall_forall. intros k Hk.
    assert (k ≠ "engines" ∧ k ≠ "page" ∧ k ≠ "query") as (He & Hp & Hq).
    { unfold imageIgnored in Hk.
      repeat (apply elem_of_cons in Hk as [->|Hk]; [done|]).
      by apply elem_of_nil in Hk. }
    destruct (image_insert_unseen query k v args He Hp) as [E1 E2].
    split; [done|]. split; [done|].
    rewrite !searxngImageSearchHandler_run. simpl.
    rewrite lookup_insert_ne by done.
    destruct (as_string (args !! "query")) as [q|]; [|done].
    by rewrite (proj1 (image_insert_unseen q k v args He Hp)).
Qed.

(** ** Determinism of the general search *)

Lemma map_json_order (ord1 ord2 : MapOrder) (m : gmap string json) :
  map_json ord1 m = map_json ord2 m.
Proof. unfold map_json. by rewrite !sortByKey_range. Qed.

(** C8. Two runs of the general-search handler on the same arguments,
    against backends that answer every request alike, give the same
    outcome, the same text payload byte for byte, whatever order each run
    iterates its maps in. *)
Theorem C8_deterministic `{!GoLib} (c : SearXNGClient) (request : mcp.CallToolRequest)
    (w1 w2 : World) :
  (∀ req, backend w1 req = backend w2 req) →
  searxngSearchHandler c request w1 = searxngSearchHandler c request w2.
Proof.
  intros Hb. rewrite !searxngSearchHandler_run. cbv zeta.
  destruct (as_string _) as [query|]; [|done].
  rewrite (Search_world c _ w1 w2 Hb). unfold finish. f_equal.
  destruct (res (Search c _ w2)) as [r|e]; [|done].
  by rewrite (map_json_order (order w1) (order w2)).
Qed.

(** The canonical and the reversed iteration order do visit the response
    map differently. *)
Example orders_differ :
  (range canonical_order (searxngSearchResponse catsResponse)).*1
  ≠ (range reversed_order (searxngSearchResponse catsResponse)).*1.
Proof. vm_compute. discriminate. Qed.

(** C8 on the scenario of the specification, one run iterating its maps in
    the opposite order of the other. *)
Lemma C8_witness :
  @searxngSearchHandler stubLib stubClient (call "searxng_search" catsArgs)
    (stubWorld 200 "{}" canonical_order)
  = @searxngSearchHandler stubLib stubClient (call "searxng_search" catsArgs)
      (stubWorld 200 "{}" reversed_order).
Proof. apply (@C8_deterministic stubLib). reflexivity. Defined.

(** ** The empty query *)

Lemma params_Query (query : string) (args : gmap string value) :
  SearchParams.Query (searxngSearchParams query args) = query
  ∧ SearchParams.Query (searxngImageSearchParams query args) = query
  ∧ SearchParams.Query (searxngNewsSearchParams query args) = query.
Proof.
  unfold searxngSearchParams, searxngImageSearchParams, searxngNewsSearchParams.
  cbv zeta. repeat split; by repeat case_match.
Qed.

Lemma finish_sent `{!GoLib} prefix encode (o : outcome SearchResponse) :
  sent (finish prefix encode o) = sent o.
Proof. done. Qed.

(** A handler that got past its argument check never reports the input
    error: every later error carries the prefix of its stage. *)
Lemma finish_not_input_error `{!GoLib} (prefix : string) encode
    (o : outcome SearchResponse) (x : ascii) (rest : string) :
  prefix = String x rest → x ≠ "q"%char →
  res (finish prefix encode o) ≠ Err "query must be a string".
Proof.
  intros -> Hx. unfold finish. simpl.
  destruct (res o) as [r|e].
  - destruct (MarshalIndent _ _ _); [done|]. intros [=].
  - intros [= E _]. by destruct (Hx E).
Qed.

(** The handlers on an argument map whose [query] is a string. *)
Lemma handlers_on_query `{!GoLib} (c : SearXNGClient) (name query : string)
    (args : gmap string value) (w : World) :
  args !! "query" = Some (VString query) →
  searxngSearchHandler c (call name args) w
  = finish "search error: " (λ r, map_json (order w) (searxngSearchResponse r))
      (Search c (searxngSearchParams query args) w)
  ∧ searxngImageSearchHandler c (call name args) w
    = finish "image search error: " SearchResponse_json
        (Search c (searxngImageSearchParams query args) w)
  ∧ searxngNewsSearchHandler c (call name args) w
    = finish "news search error: " SearchResponse_json
        (Search c (searxngNewsSearchParams query args) w).
Proof.
  intros Hq.
  rewrite searxngSearchHandler_run, searxngImageSearchHandler_run,
    searxngNewsSearchHandler_run.
  simpl. by rewrite Hq.
Qed.

(** The query string of a search whose query is empty holds the pair [q=]. *)
Lemma Encode_empty_query (params : SearchParams) :
  SearchParams.Query params = EmptyString →
  ∃ before after,
    url.Encode canonical_order (searchValues params)
    = gostrings.Join (before ++ ["q="] ++ after) "&".
Proof.
  intros Hq. rewrite Encode_searchValues. cbv zeta. rewrite Hq.
  match goal with
  | |- context [?a ++ ?b ++ ?c ++ ?d ++ ?e ++ param true "q" EmptyString ++ ?f] =>
      exists (a ++ b ++ c ++ d ++ e), f
  end.
  by rewrite <- !app_assoc.
Qed.

(** C9. A search handler given [query] as the empty string does not report
    an input error: it builds parameters whose query is empty, sets [q] to
    the empty string, and sends the request, whose query string holds the
    pair [q=]. *)
Theorem C9_empty_query `{!GoLib} (c : SearXNGClient) (name : string)
    (args : gmap string value) (w : World) :
  args !! "query" = Some (VString EmptyString) →
  Forall (λ tool,
    let params := tool.2 EmptyString args in
    let Q := url.Encode canonical_order (searchValues params) in
    let U := BaseURL c +:+ "/search?" +:+ Q in
    SearchParams.Query params = EmptyString
    ∧ searchValues params !! "q" = Some [EmptyString]
    ∧ (∃ before after, Q = gostrings.Join (before ++ ["q="] ++ after) "&")
    ∧ http.URL <$> sent (tool.1 (call name args) w) = requested U (url_Parse_error U)
    ∧ res (tool.1 (call name args) w) ≠ Err "query must be a string")
    (searchTools c).
Proof.
  intros Hq.
  destruct (params_Query EmptyString args) as (Q1 & Q2 & Q3).
  destruct (handlers_on_query c name EmptyString args w Hq) as (H1 & H2 & H3).
  unfold searchTools. repeat apply Forall_cons_2; [..|by apply Forall_nil];
    cbv zeta; cbn [fst snd].
  - rewrite H1. split; [done|]. split; [|split; [|split]].
    + destruct (searchValues_lookup (searxngSearchParams EmptyString args)) as [-> _].
      by rewrite Q1.
    + by apply Encode_empty_query.
    + rewrite finish_sent. apply Search_requests.
    + by eapply finish_not_input_error.
  - rewrite H2. split; [done|]. split; [|split; [|split]].
    + destruct (searchValues_lookup (searxngImageSearchParams EmptyString args)) as [-> _].
      by rewrite Q2.
    + by apply Encode_empty_query.
    + rewrite finish_sent. apply Search_requests.
    + by eapply finish_not_input_error.
  - rewrite H3. split; [done|]. split; [|split; [|split]].
    + destruct (searchValues_lookup (searxngNewsSearchParams EmptyString args)) as [-> _].
      by rewrite Q3.
    + by apply Encode_empty_query.
    + rewrite finish_sent. apply Search_requests.
    + by eapply finish_not_input_error.
Qed.

(** With [{query: ""}] the general search requests
    [.../search?categories=general&engines=google&format=json&language=en&q=&safesearch=0]. *)
Example empty_query_request :
  http.URL <$> sent (@searxngSearchHandler stubLib stubClient
                       (call "searxng_search" emptyQueryArgs)
                       (stubWorld 200 "{}" canonical_order))
  = ["http://127.0.0.1:8080/search?categories=general&engines=google&format=json&language=en&q=&safesearch=0"].
Proof. by vm_compute. Qed.

(** C9 at [{query: ""}]. *)
Lemma C9_witness :
  Forall (λ tool,
    let params := tool.2 EmptyString emptyQueryArgs in
    let Q := url.Encode canonical_order (searchValues params) in
    let U := BaseURL stubClient +:+ "/search?" +:+ Q in
    SearchParams.Query params = EmptyString
    ∧ searchValues params !! "q" = Some [EmptyString]
    ∧ (∃ before after, Q = gostrings.Join (before ++ ["q="] ++ after) "&")
    ∧ http.URL <$> sent (tool.1 (call "searxng_search" emptyQueryArgs)
                           (stubWorld 200 "{}" canonical_order))
      = requested U (@url_Parse_error stubLib U)
    ∧ res (tool.1 (call "searxng_search" emptyQueryArgs)
             (stubWorld 200 "{}" canonical_order))
      ≠ Err "query must be a string")
    (@searchTools stubLib stubClient).
Proof. apply (@C9_empty_query stubLib). reflexivity. Defined.

(** ** The payload of the general search *)

Lemma keys_insert {V : Type} (m : gmap string V) (k : string) (x : V) :
  m !! k = None → (map_to_list (<[k := x]> m)).*1 ≡ₚ k :: (map_to_list m).*1.
Proof. intros Hk. by rewrite map_to_list_insert. Qed.

Lemma response_dom (r : SearchResponse) :
  dom (searxngSearchResponse r)
  = {[ "query"; "number_of_results"; "results" ]}
    ∪ optKey (bool_decide (SearchResponse.Answers r ≠ [])) "answers"
    ∪ optKey (bool_decide (SearchResponse.Suggestions r ≠ [])) "suggestions"
    ∪ optKey (bool_decide (SearchResponse.Corrections r ≠ [])) "corrections".
Proof.
  unfold searxngSearchResponse. cbv zeta. rewrite !length_pos_decide.
  unfold optKey.
  repeat match goal with |- context [bool_decide ?P] => destruct (bool_decide P) end;
    rewrite !dom_insert_L, dom_empty_L; set_solver.
Qed.

Lemma response_keys (r : SearchResponse) :
  sortKeys (map_to_list (searxngSearchResponse r)).*1
  = optField (bool_decide (SearchResponse.Answers r ≠ [])) "answers"
    ++ optField (bool_decide (SearchResponse.Corrections r ≠ [])) "corrections"
    ++ ["number_of_results"; "query"; "results"]
    ++ optField (bool_decide (SearchResponse.Suggestions r ≠ [])) "suggestions".
Proof.
  unfold searxngSearchResponse. cbv zeta. rewrite !length_pos_decide.
  unfold optField.
  repeat match goal with |- context [bool_decide ?P] => destruct (bool_decide P) end;
    (etransitivity;
     [ apply sortKeys_perm;
       repeat (etransitivity;
               [ apply keys_insert; by simplify_map_eq
               | apply Permutation_skip ]);
       rewrite map_to_list_empty; reflexivity
     | by vm_compute ]).
Qed.

Lemma nl_two_spaces (depth : nat) :
  nl EmptyString "  " depth = newline +:+ spaces (2 * depth).
Proof.
  unfold nl. f_equal. change (EmptyString +:+ ?s) with s.
  induction depth as [|d IH]; [done|].
  replace (2 * S d)%nat with (S (S (2 * d))) by lia.
  change (String " " (String " " (indentation "  " d))
          = String " " (String " " (spaces (2 * d)))).
  by rewrite IH.
Qed.

Lemma MarshalIndent_Ok `{!GoLib} (v : json) (prefix indent text : string) :
  MarshalIndent v prefix indent = Ok text → text = render prefix indent 0 v.
Proof. unfold MarshalIndent. destruct (unsupported v); by intros [= <-]. Qed.

Lemma render_object `{!GoLib} (fields : list (string * json)) :
  fields ≠ [] →
  render EmptyString "  " 0 (JObject fields)
  = "{" +:+ newline +:+ "  "
    +:+ gostrings.Join (member <$> fields) ("," +:+ newline +:+ "  ")
    +:+ newline +:+ "}".
Proof. destruct fields as [|f fs]; [done|]. reflexivity. Qed.

(** C2. A successful general search returns the text of one JSON object.
    Its keys are [query], [number_of_results] and [results], and each of
    [answers], [suggestions] and [corrections] exactly when that list of the
    backend's response is not empty; [infoboxes] is never one of them.  The
    text is written by [MarshalIndent] with an indent of two spaces: the
    members stand one per line, in key order, behind two spaces, and every
    line break at nesting depth [d] is followed by [2 * d] spaces. *)
Theorem C2_general_payload `{!GoLib} (c : SearXNGClient) (request : mcp.CallToolRequest)
    (w : World) (result : mcp.CallToolResult) :
  res (searxngSearchHandler c request w) = Ok result →
  ∃ (query : string) (r : SearchResponse) (fields : list (string * json)),
    let args := mcp.Arguments (mcp.Params request) in
    let response := searxngSearchResponse r in
    let answers := bool_decide (SearchResponse.Answers r ≠ []) in
    let suggestions := bool_decide (SearchResponse.Suggestions r ≠ []) in
    let corrections := bool_decide (SearchResponse.Corrections r ≠ []) in
    as_string (args !! "query") = Some query
    ∧ res (Search c (searxngSearchParams query args) w) = Ok r
    ∧ dom response
      = {[ "query"; "number_of_results"; "results" ]}
        ∪ optKey answers "answers" ∪ optKey suggestions "suggestions"
        ∪ optKey corrections "corrections"
    ∧ response !! "infoboxes" = None
    ∧ (∀ k v, (k, v) ∈ fields ↔ response !! k = Some v)
    ∧ fields.*1
      = optField answers "answers" ++ optField corrections "corrections"
        ++ ["number_of_results"; "query"; "results"]
        ++ optField suggestions "suggestions"
    ∧ result
      = mcp.NewToolResultText
          ("{" +:+ newline +:+ "  "
           +:+ gostrings.Join (member <$> fields) ("," +:+ newline +:+ "  ")
           +:+ newline +:+ "}")
    ∧ ∀ depth, nl EmptyString "  " depth = newline +:+ spaces (2 * depth).
Proof.
  rewrite searxngSearchHandler_run. cbv zeta.
  destruct (as_string _) as [query|] eqn:Hq; [|done].
  unfold finish. cbn [res].
  match goal with
  | |- context [Search c ?p w] => destruct (res (Search c p w)) as [r|e] eqn:Hr
  end; [|done].
  destruct (MarshalIndent _ _ _) as [text|e] eqn:Hm; [|done].
  intros [= <-].
  exists query, r, (sortByKey (map_to_list (searxngSearchResponse r))).
  cbv zeta.
  assert (Hkeys := response_keys r). rewrite <- sortByKey_keys in Hkeys.
  split; [done|]. split; [done|]. split; [apply response_dom|].
  split; [|split; [|split; [done|split; [|apply nl_two_spaces]]]].
  - apply not_elem_of_dom. rewrite response_dom. unfold optKey.
    repeat match goal with |- context [bool_decide ?P] => destruct (bool_decide P) end;
      set_solver.
  - intros k v. unfold sortByKey. rewrite merge_sort_Permutation.
    apply elem_of_map_to_list.
  - apply MarshalIndent_Ok in Hm. subst text. f_equal.
    unfold map_json. rewrite sortByKey_range.
    apply render_object. intros E. rewrite E in Hkeys.
    by destruct (optField _ "answers"), (optField _ "corrections").
Qed.

(** C2 on the scenario of the specification: the payload has the three
    fixed keys and no other. *)
Lemma C2_witness :
  ∃ (query : string) (r : SearchResponse) (fields : list (string * json)),
    as_string (catsArgs !! "query") = Some query
    ∧ res (@Search stubLib stubClient (searxngSearchParams query catsArgs)
             (stubWorld 200 "{}" canonical_order)) = Ok r
    ∧ dom (searxngSearchResponse r)
      = {[ "query"; "number_of_results"; "results" ]}
        ∪ optKey (bool_decide (SearchResponse.Answers r ≠ [])) "answers"
        ∪ optKey (bool_decide (SearchResponse.Suggestions r ≠ [])) "suggestions"
        ∪ optKey (bool_decide (SearchResponse.Corrections r ≠ [])) "corrections"
    ∧ searxngSearchResponse r !! "infoboxes" = None
    ∧ (∀ k v, (k, v) ∈ fields ↔ searxngSearchResponse r !! k = Some v)
    ∧ fields.*1
      = optField (bool_decide (SearchResponse.Answers r ≠ [])) "answers"
        ++ optField (bool_decide (SearchResponse.Corrections r ≠ [])) "corrections"
        ++ ["number_of_results"; "query"; "results"]
        ++ optField (bool_decide (SearchResponse.Suggestions r ≠ [])) "suggestions"
    ∧ mcp.NewToolResultText
        (@render stubLib EmptyString "  " 0
           (map_json canonical_order (searxngSearchResponse catsResponse)))
      = mcp.NewToolResultText
          ("{" +:+ newline +:+ "  "
           +:+ gostrings.Join (@member stubLib <$> fields) ("," +:+ newline +:+ "  ")
           +:+ newline +:+ "}")
    ∧ ∀ depth, nl EmptyString "  " depth = newline +:+ spaces (2 * depth).
Proof.
  apply (@C2_general_payload stubLib stubClient (call "searxng_search" catsArgs)
           (stubWorld 200 "{}" canonical_order)).
  by vm_compute.
Defined.

(** ** Coercion of the arguments *)

Lemma float64_trunc_spec (f : float64) (z : Z) :
  truncation f z → float64_trunc f = Some z.
Proof.
  destruct f as [s|s| |s m e]; simpl; try done.
  - by intros ->.
  - intros [[Hlo Hhi] Hs]. f_equal.
    assert (Z.shiftl (Z.pos m) e = Z.abs z) as ->.
    { destruct (Z.le_gt_cases 0 e) as [He|He].
      - rewrite Z.shiftl_mul_pow2 by done.
        rewrite (Z.max_l e 0), (Z.max_r (- e) 0) in * by lia.
        rewrite Z.pow_0_r in *. lia.
      - rewrite Z.shiftl_div_pow2 by lia.
        rewrite (Z.max_r e 0), (Z.max_l (- e) 0) in * by lia.
        rewrite Z.pow_0_r in *.
        assert (0 < 2 ^ (- e)) as Hd by (apply Z.pow_pos_nonneg; lia).
        symmetry. apply (Z.div_unique_pos _ _ _ (Z.pos m - Z.abs z * 2 ^ (- e))); lia. }
    destruct s; lia.
Qed.

Lemma int_of_float64_spec (f : float64) (z : Z) :
  truncation f z → minInt <= z <= maxInt → int_of_float64 f = z.
Proof.
  intros Ht [Hlo Hhi]. unfold int_of_float64.
  rewrite (float64_trunc_spec f z Ht).
  destruct (Z.leb_spec minInt z); [|lia].
  destruct (Z.leb_spec z maxInt); [done|lia].
Qed.

Lemma splitTrim_not_nil (s : string) : splitTrim s ≠ [].
Proof.
  unfold splitTrim, gostrings.Split. simpl.
  intros E. apply fmap_nil_inv in E. by apply split_go_not_nil in E.
Qed.

Lemma params_fields (query : string) (args : gmap string value) :
  SearchParams.Categories (searxngSearchParams query args)
  = coerced (as_string (args !! "categories")) ["general"]
  ∧ SearchParams.Engines (searxngSearchParams query args)
    = coerced (as_string (args !! "engines")) ["google"]
  ∧ SearchParams.Engines (searxngImageSearchParams query args)
    = coerced (as_string (args !! "engines")) ["google images"]
  ∧ SearchParams.PageNo (searxngSearchParams query args)
    = pageOf (as_float64 (args !! "page"))
  ∧ SearchParams.PageNo (searxngImageSearchParams query args)
    = pageOf (as_float64 (args !! "page"))
  ∧ SearchParams.PageNo (searxngNewsSearchParams query args)
    = pageOf (as_float64 (args !! "page")).
Proof.
  unfold searxngSearchParams, searxngImageSearchParams, searxngNewsSearchParams,
    coerced, pageOf.
  cbv zeta.
  destruct (as_string (args !! "categories")) as [cs|];
    destruct (as_string (args !! "engines")) as [es|];
    destruct (as_string (args !! "language")) as [ls|];
    destruct (as_string (args !! "time_range")) as [ts|];
    destruct (as_float64 (args !! "page")) as [pf|];
    destruct (as_float64 (args !! "safe_search")) as [sf|];
    rewrite <- ?nonEmpty_decide;
    repeat match goal with |- context [nonEmpty ?x] => destruct (nonEmpty x) end;
    repeat split; reflexivity.
Qed.

Lemma coerced_not_nil (arg : option string) (default : list string) :
  default ≠ [] → coerced arg default ≠ [].
Proof.
  intros Hd. unfold coerced. destruct arg as [s|]; [|done].
  destruct (bool_decide _); [apply splitTrim_not_nil|done].
Qed.

(** A blank [categories] argument is coerced to the list of one empty
    string, exactly as the empty argument would be, and that list is used and
    sent as [categories=]: the default is not, as it is for the empty
    argument.  And a [page] of [2^63] is not truncated to [2^63], which no
    [int] holds. *)
Lemma C5_counterexample :
  (splitTrim " " = [EmptyString]
   ∧ splitTrim EmptyString = [EmptyString]
   ∧ emptyResult (splitTrim " "))
  ∧ (SearchParams.Categories (searxngSearchParams "cats" blankArgs) = [EmptyString]
     ∧ searchValues (searxngSearchParams "cats" blankArgs) !! "categories"
       = Some [EmptyString]
     ∧ SearchParams.Categories
         (searxngSearchParams "cats" (<["categories" := VString EmptyString]> catsArgs))
       = ["general"])
  ∧ (truncation (S754_finite false 1 63) (2 ^ 63)
     ∧ SearchParams.PageNo
         (searxngSearchParams "cats"
            (<["page" := VNumber (S754_finite false 1 63)]> catsArgs))
       = - 2 ^ 63).
Proof.
  split; [|split].
  - split; [by vm_compute|]. split; [by vm_compute|]. by repeat constructor.
  - repeat split; by vm_compute.
  - split; [|by vm_compute].
    unfold truncation. vm_compute. repeat split; by intros [=].
Qed.

Lemma as_string_other (x : option value) :
  (∀ s, x ≠ Some (VString s)) → as_string x = None.
Proof.
  intros Hx. destruct x as [[]|]; try done. by destruct (Hx s).
Qed.

(** C5, as the code has it.  A [categories] or [engines] argument that is a non-empty
    string is split on commas and every piece is trimmed of the white space
    around it (so [" general , news "] gives [["general"; "news"]]); the
    resulting list is used as it is and is never the empty list.  When the
    argument is the empty string, is absent, or is not a string, the default
    list of the handler is used.  A numeric [page] whose integer part fits an
    [int] is truncated toward zero. *)
Theorem C5_coercion (query : string) (args : gmap string value) :
  let general := searxngSearchParams query args in
  let image := searxngImageSearchParams query args in
  let news := searxngNewsSearchParams query args in
  gostrings.TrimSpace <$> gostrings.Split " general , news " "," = ["general"; "news"]
  ∧ (∀ s, args !! "categories" = Some (VString s) →
       SearchParams.Categories general
       = if bool_decide (s ≠ EmptyString)
         then gostrings.TrimSpace <$> gostrings.Split s ","
         else ["general"])
  ∧ (∀ s, args !! "engines" = Some (VString s) →
       SearchParams.Engines general
       = (if bool_decide (s ≠ EmptyString)
          then gostrings.TrimSpace <$> gostrings.Split s ","
          else ["google"])
       ∧ SearchParams.Engines image
         = (if bool_decide (s ≠ EmptyString)
            then gostrings.TrimSpace <$> gostrings.Split s ","
            else ["google images"]))
  ∧ ((∀ s, args !! "categories" ≠ Some (VString s)) →
       SearchParams.Categories general = ["general"])
  ∧ ((∀ s, args !! "engines" ≠ Some (VString s)) →
       SearchParams.Engines general = ["google"]
       ∧ SearchParams.Engines image = ["google images"])
  ∧ (SearchParams.Categories general ≠ []
     ∧ SearchParams.Engines general ≠ []
     ∧ SearchParams.Engines image ≠ [])
  ∧ (∀ f z, args !! "page" = Some (VNumber f) →
       truncation f z → minInt <= z <= maxInt →
       SearchParams.PageNo general = z
       ∧ SearchParams.PageNo image = z
       ∧ SearchParams.PageNo news = z).
Proof.
  intros general image news.
  destruct (params_fields query args) as (Hc & Heg & Hei & Hpg & Hpi & Hpn).
  split; [by vm_compute|]. split; [|split; [|split; [|split; [|split]]]].
  - intros s Hs. unfold general. by rewrite Hc, Hs.
  - intros s Hs. unfold general, image. by rewrite Heg, Hei, Hs.
  - intros Hs. unfold general. by rewrite Hc, (as_string_other _ Hs).
  - intros Hs. unfold general, image. by rewrite Heg, Hei, (as_string_other _ Hs).
  - unfold general, image. rewrite Hc, Heg, Hei.
    repeat split; by apply coerced_not_nil.
  - intros f z Hf Ht Hz. unfold general, image, news.
    rewrite Hpg, Hpi, Hpn, Hf. simpl.
    by rewrite (int_of_float64_spec f z Ht Hz).
Qed.

(** C5 at [{query: "cats", categories: " general , news ", engines: "",
    page: 2.5}], and at [{query: "cats", categories: 0}], where
    [categories] is a number and [engines] is absent. *)
Lemma C5_witness :
  (SearchParams.Categories (searxngSearchParams "cats" coercionArgs) = ["general"; "news"]
   ∧ SearchParams.Engines (searxngSearchParams "cats" coercionArgs) = ["google"]
   ∧ SearchParams.Engines (searxngImageSearchParams "cats" coercionArgs) = ["google images"]
   ∧ SearchParams.PageNo (searxngSearchParams "cats" coercionArgs) = 2
   ∧ SearchParams.PageNo (searxngImageSearchParams "cats" coercionArgs) = 2
   ∧ SearchParams.PageNo (searxngNewsSearchParams "cats" coercionArgs) = 2)
  ∧ (SearchParams.Categories
       (searxngSearchParams "cats" (<["categories" := VNumber zero]> catsArgs))
     = ["general"]
     ∧ SearchParams.Engines
         (searxngSearchParams "cats" (<["categories" := VNumber zero]> catsArgs))
       = ["google"]
     ∧ SearchParams.Engines
         (searxngImageSearchParams "cats" (<["categories" := VNumber zero]> catsArgs))
       = ["google images"]).
Proof.
  split.
  - destruct (C5_coercion "cats" coercionArgs) as (_ & Hc & He & _ & _ & _ & Hp).
    split; [exact (Hc " general , news " eq_refl)|].
    split; [exact (proj1 (He EmptyString eq_refl))|].
    split; [exact (proj2 (He EmptyString eq_refl))|].
    apply (Hp (S754_finite false 5 (-1)) 2 eq_refl).
    + unfold truncation. vm_compute. repeat split; by intros [=].
    + unfold minInt, maxInt. lia.
  - destruct (C5_coercion "cats" (<["categories" := VNumber zero]> catsArgs))
      as (_ & _ & _ & Hc & He & _).
    split; [apply Hc; intros s; vm_compute; discriminate|].
    apply He. intros s. vm_compute. discriminate.
Defined.

(** * Further properties of the client and the handlers *)

(** ** What a run sends and when it succeeds *)

Lemma searxngEnginesInfoHandler_run `{!GoLib} (c : SearXNGClient)
    (request : mcp.CallToolRequest) (w : World) :
  searxngEnginesInfoHandler c request w = finishEngines (order w) (GetEngines c w).
Proof.
  unfold searxngEnginesInfoHandler, finishEngines.
  unfold mbind, Net_bind, iteration, wrap, lift, fail, mret, Net_ret.
  destruct (GetEngines c w) as [rs [config|e]]; simpl; [|done].
  destruct (MarshalIndent _ _ _) as [text|e]; simpl; by rewrite ?app_nil_r.
Qed.

(** X1.  [Search] succeeds in exactly one way: the URL parses, the backend
    answers with status 200, the body is read to its end, and the body
    decodes; the response returned is the decoded one.  Every other run
    fails: there is no partial result. *)
Theorem Search_success `{!GoLib} (c : SearXNGClient) (params : SearchParams)
    (w : World) (r : SearchResponse) :
  res (Search c params w) = Ok r
  ↔ url_Parse_error (searchRequestURL (order w) c params) = None
    ∧ ∃ resp,
        backend w (searchRequest (order w) c params) = Ok resp
        ∧ http.StatusCode resp = 200
        ∧ http.readErr (http.RespBody resp) = None
        ∧ Unmarshal_SearchResponse (http.read (http.RespBody resp)) = Ok r.
Proof.
  rewrite Search_run. unfold searchAnswer, ReadAll, http.StatusOK.
  destruct (url_Parse_error _) as [e|]; simpl.
  { split; [done|]. by intros [? _]. }
  destruct (backend w _) as [resp|e]; simpl.
  2: { split; [done|]. by intros (_ & resp & ? & _). }
  destruct (Z.eqb_spec (http.StatusCode resp) 200) as [Hs|Hs].
  2: { split; [done|]. intros (_ & resp' & [= <-] & ? & _). done. }
  destruct (http.readErr (http.RespBody resp)) as [e|] eqn:Hr.
  { split; [done|]. intros (_ & resp' & [= <-] & _ & Hr' & _). congruence. }
  split.
  - intros Hu. split; [done|]. exists resp. repeat split; try done.
    by destruct (Unmarshal_SearchResponse _) as [r'|e]; simplify_eq/=.
  - intros (_ & resp' & [= <-] & _ & _ & ->). done.
Qed.

Lemma Search_clientRequest `{!GoLib} (c : SearXNGClient) (params : SearchParams)
    (w : World) :
  (length (sent (Search c params w)) ≤ 1)%nat
  ∧ Forall (clientRequest c) (sent (Search c params w)).
Proof.
  rewrite Search_run. destruct (url_Parse_error _); simpl.
  - split; [lia|constructor].
  - split; [lia|]. apply Forall_cons_2; [|by apply Forall_nil].
    split; [done|]. split; [done|]. left. exists params.
    unfold searchRequest, searchRequestURL. cbn [setHeaders http.Header_Set http.URL].
    by rewrite (Encode_order (order w) canonical_order), append_assoc.
Qed.

Lemma GetEngines_clientRequest `{!GoLib} (c : SearXNGClient) (w : World) :
  (length (sent (GetEngines c w)) ≤ 1)%nat
  ∧ Forall (clientRequest c) (sent (GetEngines c w)).
Proof.
  rewrite GetEngines_run. destruct (url_Parse_error _); simpl.
  - split; [lia|constructor].
  - split; [lia|]. apply Forall_cons_2; [|by apply Forall_nil].
    split; [done|]. split; [done|]. by right.
Qed.

(** X3.  Every registered handler calls [HTTPClient.Do] at most once in a run:
    the code has no retry and no second call.  The request it hands to [Do]
    is a GET whose header map holds exactly the [User-Agent] and [Accept]
    entries the client sets, and whose URL is [/search] with a query string
    or [/config] under the base URL.  This is the request as the code builds
    it; what [net/http] does with it inside [Do] (redirects it follows,
    headers the transport writes) is not part of the model. *)
Theorem handlers_send_one_request `{!GoLib} (c : SearXNGClient)
    (request : mcp.CallToolRequest) (w : World) :
  Forall (λ tool,
    (length (sent (tool.2 request w)) ≤ 1)%nat
    ∧ Forall (clientRequest c) (sent (tool.2 request w)))
    (registeredTools c).
Proof.
  unfold registeredTools. repeat apply Forall_cons_2; [..|by apply Forall_nil];
    cbn [snd].
  - rewrite searxngSearchHandler_run. cbv zeta.
    destruct (as_string _); [apply Search_clientRequest|].
    simpl. split; [lia|constructor].
  - rewrite searxngEnginesInfoHandler_run. apply GetEngines_clientRequest.
  - rewrite searxngImageSearchHandler_run. cbv zeta.
    destruct (as_string _); [apply Search_clientRequest|].
    simpl. split; [lia|constructor].
  - rewrite searxngNewsSearchHandler_run. cbv zeta.
    destruct (as_string _); [apply Search_clientRequest|].
    simpl. split; [lia|constructor].
Qed.

(** ** Answers with a status other than 200 *)

Lemma Search_status `{!GoLib} (c : SearXNGClient) (params : SearchParams)
    (w : World) (req : http.Request) (resp : http.Response) :
  req ∈ sent (Search c params w) →
  backend w req = Ok resp →
  http.StatusCode resp ≠ 200 →
  res (Search c params w)
  = Err ("HTTP error " +:+ strconv.Itoa (http.StatusCode resp) +:+ ": "
         +:+ http.read (http.RespBody resp)).
Proof.
  rewrite Search_run. destruct (url_Parse_error _); simpl.
  { by intros ?%elem_of_nil. }
  intros ->%list_elem_of_singleton Hb Hs. rewrite Hb. simpl.
  unfold http.StatusOK. by destruct (Z.eqb_spec (http.StatusCode resp) 200).
Qed.

Lemma GetEngines_status `{!GoLib} (c : SearXNGClient)
    (w : World) (req : http.Request) (resp : http.Response) :
  req ∈ sent (GetEngines c w) →
  backend w req = Ok resp →
  http.StatusCode resp ≠ 200 →
  res (GetEngines c w)
  = Err ("HTTP error " +:+ strconv.Itoa (http.StatusCode resp)).
Proof.
  rewrite GetEngines_run. destruct (url_Parse_error _); simpl.
  { by intros ?%elem_of_nil. }
  intros ->%list_elem_of_singleton Hb Hs. rewrite Hb. simpl.
  unfold http.StatusOK. by destruct (Z.eqb_spec (http.StatusCode resp) 200).
Qed.

(** X4.  Whenever a handler has handed its request to [HTTPClient.Do] and [Do]
    has returned a response with any status other than 200 (a 201 or a 204
    as much as a 500), the handler fails, with the error of its stage: the
    search handlers name the status and the bytes of the body that could be
    read, the engines-info handler the status alone.  No payload is
    returned.  Nothing is assumed of the URL parser, nor of what the backend
    answers to other requests. *)
Theorem handlers_fail_on_status `{!GoLib} (c : SearXNGClient)
    (request : mcp.CallToolRequest) (w : World) :
  Forall (λ tool, ∀ req resp,
    req ∈ sent (tool.2 request w) →
    backend w req = Ok resp →
    http.StatusCode resp ≠ 200 →
    res (tool.2 request w)
    = Err (errorPrefix tool.1 +:+ statusError tool.1 resp))
    (registeredTools c).
Proof.
  unfold registeredTools. repeat apply Forall_cons_2; [..|by apply Forall_nil];
    cbn [fst snd]; intros req resp.
  - rewrite searxngSearchHandler_run. cbv zeta.
    destruct (as_string _); [|by intros ?%elem_of_nil].
    unfold finish. cbn [sent res]. intros Hr Hb Hs.
    by rewrite (Search_status _ _ _ _ _ Hr Hb Hs).
  - rewrite searxngEnginesInfoHandler_run.
    unfold finishEngines. cbn [sent res]. intros Hr Hb Hs.
    by rewrite (GetEngines_status _ _ _ _ Hr Hb Hs).
  - rewrite searxngImageSearchHandler_run. cbv zeta.
    destruct (as_string _); [|by intros ?%elem_of_nil].
    unfold finish. cbn [sent res]. intros Hr Hb Hs.
    by rewrite (Search_status _ _ _ _ _ Hr Hb Hs).
  - rewrite searxngNewsSearchHandler_run. cbv zeta.
    destruct (as_string _); [|by intros ?%elem_of_nil].
    unfold finish. cbn [sent res]. intros Hr Hb Hs.
    by rewrite (Search_status _ _ _ _ _ Hr Hb Hs).
Qed.

(** With a URL parser that rejects some URLs, against a backend that answers
    [/config] with a 404 and every other request with a 503 and the body
    [busy]. *)
Lemma handlers_fail_on_status_witness :
  res (@searxngSearchHandler strictLib stubClient
         (call "searxng_search" catsArgs) failingWorld)
  = Err "search error: HTTP error 503: busy"
  ∧ res (@searxngEnginesInfoHandler strictLib stubClient
           (call "searxng_engines_info" ∅) failingWorld)
    = Err "error getting engines information: HTTP error 404"
  ∧ res (@searxngImageSearchHandler strictLib stubClient
           (call "searxng_image_search" catsArgs) failingWorld)
    = Err "image search error: HTTP error 503: busy"
  ∧ res (@searxngNewsSearchHandler strictLib stubClient
           (call "searxng_news_search" catsArgs) failingWorld)
    = Err "news search error: HTTP error 503: busy".
Proof.
  pose proof (@handlers_fail_on_status strictLib stubClient
                (call "searxng_search" catsArgs) failingWorld) as Hs.
  pose proof (@handlers_fail_on_status strictLib stubClient
                (call "searxng_engines_info" ∅) failingWorld) as He.
  pose proof (@handlers_fail_on_status strictLib stubClient
                (call "searxng_image_search" catsArgs) failingWorld) as Hi.
  pose proof (@handlers_fail_on_status strictLib stubClient
                (call "searxng_news_search" catsArgs) failingWorld) as Hn.
  unfold registeredTools in Hs, He, Hi, Hn.
  apply Forall_cons in Hs as [Hs _].
  apply Forall_cons in He as [_ [He _]%Forall_cons].
  apply Forall_cons in Hi as [_ [_ [Hi _]%Forall_cons]%Forall_cons].
  apply Forall_cons in Hn as [_ [_ [_ [Hn _]%Forall_cons]%Forall_cons]%Forall_cons].
  cbn [fst snd] in Hs, He, Hi, Hn.
  split; [|split; [|split]].
  - eapply (Hs _ {| http.StatusCode := 503;
                    http.RespBody := {| http.read := "busy"; http.readErr := None |} |});
      [vm_compute; apply list_elem_of_here|vm_compute; reflexivity|].
    vm_compute. discriminate.
  - eapply (He _ {| http.StatusCode := 404;
                    http.RespBody := {| http.read := EmptyString;
                                        http.readErr := None |} |});
      [vm_compute; apply list_elem_of_here|vm_compute; reflexivity|].
    vm_compute. discriminate.
  - eapply (Hi _ {| http.StatusCode := 503;
                    http.RespBody := {| http.read := "busy"; http.readErr := None |} |});
      [vm_compute; apply list_elem_of_here|vm_compute; reflexivity|].
    vm_compute. discriminate.
  - eapply (Hn _ {| http.StatusCode := 503;
                    http.RespBody := {| http.read := "busy"; http.readErr := None |} |});
      [vm_compute; apply list_elem_of_here|vm_compute; reflexivity|].
    vm_compute. discriminate.
Defined.

(** ** The arguments a handler reads *)

Lemma image_params_ext (query : string) (args1 args2 : gmap string value) :
  as_string (args1 !! "engines") = as_string (args2 !! "engines") →
  as_float64 (args1 !! "page") = as_float64 (args2 !! "page") →
  searxngImageSearchParams query args1 = searxngImageSearchParams query args2.
Proof.
  intros He Hp. unfold searxngImageSearchParams. cbv zeta. by rewrite He, Hp.
Qed.

Lemma news_params_ext (query : string) (args1 args2 : gmap string value) :
  as_string (args1 !! "time_range") = as_string (args2 !! "time_range") →
  as_string (args1 !! "language") = as_string (args2 !! "language") →
  as_float64 (args1 !! "page") = as_float64 (args2 !! "page") →
  searxngNewsSearchParams query args1 = searxngNewsSearchParams query args2.
Proof.
  intros Ht Hl Hp. unfold searxngNewsSearchParams. cbv zeta. by rewrite Ht, Hl, Hp.
Qed.

Lemma general_params_ext (query : string) (args1 args2 : gmap string value) :
  as_string (args1 !! "categories") = as_string (args2 !! "categories") →
  as_string (args1 !! "engines") = as_string (args2 !! "engines") →
  as_string (args1 !! "language") = as_string (args2 !! "language") →
  as_float64 (args1 !! "page") = as_float64 (args2 !! "page") →
  as_string (args1 !! "time_range") = as_string (args2 !! "time_range") →
  as_float64 (args1 !! "safe_search") = as_float64 (args2 !! "safe_search") →
  searxngSearchParams query args1 = searxngSearchParams query args2.
Proof.
  intros Hc He Hl Hp Ht Hs. unfold searxngSearchParams. cbv zeta.
  by rewrite Hc, He, Hl, Hp, Ht, Hs.
Qed.

(** X6.  A handler reads the arguments its tool declares in [main] and nothing
    else of the request: two requests that agree on the declared arguments
    get the same run, whatever other arguments and whatever tool name they
    carry.  The engines-info tool declares none, and its handler reads
    none. *)
Theorem handlers_read_declared_arguments `{!GoLib} (c : SearXNGClient)
    (name1 name2 : string) (args1 args2 : gmap string value) (w : World) :
  Forall (λ tool,
    (∀ a, a ∈ ToolArguments tool.1 → args1 !! ArgName a = args2 !! ArgName a) →
    tool.2 (call name1 args1) w = tool.2 (call name2 args2) w)
    (registeredTools c).
Proof.
  unfold registeredTools. repeat apply Forall_cons_2; [..|by apply Forall_nil];
    cbn [fst snd]; intros Hag; apply Forall_forall in Hag;
    cbn [ToolArguments searchTool enginesInfoTool imageSearchTool newsSearchTool] in Hag;
    repeat match type of Hag with
           | Forall _ (_ :: _) => apply Forall_cons in Hag as [? Hag]
           end;
    cbn [ArgName] in *.
  - rewrite !searxngSearchHandler_run. cbn [call mcp.Params mcp.Arguments]. cbv zeta.
    replace (args1 !! "query") with (args2 !! "query") by done.
    destruct (as_string (args2 !! "query")) as [query|]; [|done].
    by rewrite (general_params_ext query args1 args2) by congruence.
  - by rewrite !searxngEnginesInfoHandler_run.
  - rewrite !searxngImageSearchHandler_run. cbn [call mcp.Params mcp.Arguments]. cbv zeta.
    replace (args1 !! "query") with (args2 !! "query") by done.
    destruct (as_string (args2 !! "query")) as [query|]; [|done].
    by rewrite (image_params_ext query args1 args2) by congruence.
  - rewrite !searxngNewsSearchHandler_run. cbn [call mcp.Params mcp.Arguments]. cbv zeta.
    replace (args1 !! "query") with (args2 !! "query") by done.
    destruct (as_string (args2 !! "query")) as [query|]; [|done].
    by rewrite (news_params_ext query args1 args2) by congruence.
Qed.

(** The image search on [{query}] and on [{query, categories}], under two
    tool names. *)
Lemma handlers_read_declared_arguments_witness :
  @searxngImageSearchHandler stubLib stubClient (call "searxng_image_search" catsArgs)
    (stubWorld 200 "{}" canonical_order)
  = @searxngImageSearchHandler stubLib stubClient
      (call "images" (<["categories" := VString "news"]> catsArgs))
      (stubWorld 200 "{}" canonical_order).
Proof.
  pose proof (@handlers_read_declared_arguments stubLib stubClient
                "searxng_image_search" "images" catsArgs
                (<["categories" := VString "news"]> catsArgs)
                (stubWorld 200 "{}" canonical_order)) as H.
  unfold registeredTools in H.
  apply Forall_cons in H as [_ H]. apply Forall_cons in H as [_ H].
  apply Forall_cons in H as [H _]. apply H. clear H.
  intros a Ha. cbn [fst imageSearchTool ToolArguments] in Ha.
  repeat (apply elem_of_cons in Ha as [->|Ha]; [vm_compute; reflexivity|]).
  by apply elem_of_nil in Ha.
Defined.

(** ** What every search request carries *)

Lemma params_Language (query : string) (args : gmap string value) :
  SearchParams.Language (searxngSearchParams query args) ≠ EmptyString
  ∧ SearchParams.Language (searxngImageSearchParams query args) = "en"
  ∧ SearchParams.Language (searxngNewsSearchParams query args) ≠ EmptyString.
Proof.
  unfold searxngSearchParams, searxngImageSearchParams, searxngNewsSearchParams.
  cbv zeta.
  destruct (as_string (args !! "categories")) as [cs|];
    destruct (as_string (args !! "engines")) as [es|];
    destruct (as_string (args !! "language")) as [ls|];
    destruct (as_string (args !! "time_range")) as [ts|];
    destruct (as_float64 (args !! "page")) as [pf|];
    destruct (as_float64 (args !! "safe_search")) as [sf|];
    repeat match goal with |- context [nonEmpty ?x] => destruct (nonEmpty x) eqn:? end;
    repeat split; simpl; try done;
    intros ->; done.
Qed.

Lemma params_fixed (query : string) (args : gmap string value) :
  SearchParams.Categories (searxngNewsSearchParams query args) = ["news"]
  ∧ SearchParams.Engines (searxngNewsSearchParams query args) = ["google news"]
  ∧ SearchParams.SafeSearch (searxngNewsSearchParams query args) = 0
  ∧ SearchParams.SafeSearch (searxngImageSearchParams query args) = 0.
Proof.
  unfold searxngImageSearchParams, searxngNewsSearchParams. cbv zeta.
  repeat split; by repeat case_match.
Qed.

Lemma included_Some (cond : bool) (value : string) :
  cond = true → included cond value = Some [value].
Proof. by intros ->. Qed.

(** X7.  Whatever the arguments, the parameters a search handler builds have a
    non-empty categories list, a non-empty engines list and a non-empty
    language, so that the request always carries [q], [format], [categories],
    [engines] and [language]; the image and the news search, which read no
    [safe_search], always send [safesearch=0], and the news search always
    asks for the category [news] on the engine [google news]. *)
Theorem search_requests_always_carry (query : string) (args : gmap string value) :
  Forall (λ build,
    {[ "q"; "format"; "categories"; "engines"; "language" ]}
    ⊆ dom (searchValues (build query args)))
    paramBuilders
  ∧ searchValues (searxngImageSearchParams query args) !! "safesearch" = Some ["0"]
  ∧ searchValues (searxngNewsSearchParams query args) !! "safesearch" = Some ["0"]
  ∧ searchValues (searxngNewsSearchParams query args) !! "categories" = Some ["news"]
  ∧ searchValues (searxngNewsSearchParams query args) !! "engines" = Some ["google news"].
Proof.
  destruct (params_fields query args) as (Hc & Heg & Hei & _).
  destruct (params_Language query args) as (Hlg & Hli & Hln).
  destruct (params_fixed query args) as (Hnc & Hne & Hns & His).
  assert (∀ p, SearchParams.Categories p ≠ [] → SearchParams.Engines p ≠ [] →
               SearchParams.Language p ≠ EmptyString →
               {[ "q"; "format"; "categories"; "engines"; "language" ]}
               ⊆ dom (searchValues p)) as Hdom.
  { intros p H1 H2 H3.
    destruct (searchValues_lookup p) as (Hq & Hf & Hcat & Heng & Hlang & _).
    cbv zeta in *.
    rewrite included_Some in Hcat by by apply bool_decide_eq_true_2.
    rewrite included_Some in Heng by by apply bool_decide_eq_true_2.
    rewrite included_Some in Hlang by by apply bool_decide_eq_true_2.
    intros k Hk. apply elem_of_dom.
    repeat (apply elem_of_union in Hk as [Hk|Hk]);
      apply elem_of_singleton in Hk as ->; eauto. }
  split; [|split; [|split; [|split]]].
  - unfold paramBuilders. repeat apply Forall_cons_2; [..|by apply Forall_nil].
    + apply Hdom; [rewrite Hc|rewrite Heg|done]; by apply coerced_not_nil.
    + apply Hdom; [|rewrite Hei; by apply coerced_not_nil|by rewrite Hli].
      unfold searxngImageSearchParams. cbv zeta. by repeat case_match.
    + apply Hdom; [by rewrite Hnc|by rewrite Hne|done].
  - destruct (searchValues_lookup (searxngImageSearchParams query args))
      as (_ & _ & _ & _ & _ & _ & _ & ->). by rewrite His.
  - destruct (searchValues_lookup (searxngNewsSearchParams query args))
      as (_ & _ & _ & _ & _ & _ & _ & ->). by rewrite Hns.
  - destruct (searchValues_lookup (searxngNewsSearchParams query args))
      as (_ & _ & -> & _). by rewrite Hnc.
  - destruct (searchValues_lookup (searxngNewsSearchParams query args))
      as (_ & _ & _ & -> & _). by rewrite Hne.
Qed.

(** ** The numeric arguments of the general search *)

Lemma general_SafeSearch (query : string) (args : gmap string value) :
  SearchParams.SafeSearch (searxngSearchParams query args)
  = pageOf (as_float64 (args !! "safe_search")).
Proof.
  unfold searxngSearchParams, pageOf. cbv zeta. by repeat case_match.
Qed.

(** X8.  The general search sends [pageno] exactly when the integer part of
    [page] is at least 1: a fraction below 1, zero or a negative page sends
    none, as an absent or non-numeric [page] does.  It sends [safesearch]
    with the integer part of [safe_search] when that is 0, 1 or 2 and omits
    it otherwise; without a numeric [safe_search] it sends [safesearch=0]. *)
Theorem general_numeric_arguments (query : string) (args : gmap string value) :
  let v := searchValues (searxngSearchParams query args) in
  (∀ f z, args !! "page" = Some (VNumber f) →
     truncation f z → minInt <= z <= maxInt →
     v !! "pageno" = included (bool_decide (1 <= z)) (strconv.Itoa z))
  ∧ ((∀ f, args !! "page" ≠ Some (VNumber f)) → v !! "pageno" = None)
  ∧ (∀ f z, args !! "safe_search" = Some (VNumber f) →
       truncation f z → minInt <= z <= maxInt →
       v !! "safesearch" = included (bool_decide (0 <= z ∧ z <= 2)) (strconv.Itoa z))
  ∧ ((∀ f, args !! "safe_search" ≠ Some (VNumber f)) →
     v !! "safesearch" = Some ["0"]).
Proof.
  intros v.
  destruct (params_fields query args) as (_ & _ & _ & Hp & _).
  pose proof (general_SafeSearch query args) as Hs.
  destruct (searchValues_lookup (searxngSearchParams query args))
    as (_ & _ & _ & _ & _ & Hpage & _ & Hsafe).
  cbv zeta in Hpage, Hsafe. fold v in Hpage, Hsafe.
  split; [|split; [|split]].
  - intros f z Hf Ht Hz. rewrite Hpage, Hp, Hf. simpl.
    rewrite (int_of_float64_spec f z Ht Hz).
    f_equal. apply bool_decide_ext. lia.
  - intros Hn. rewrite Hpage, Hp.
    destruct (args !! "page") as [[]|]; try done. by destruct (Hn f).
  - intros f z Hf Ht Hz. rewrite Hsafe, Hs, Hf. simpl.
    by rewrite (int_of_float64_spec f z Ht Hz).
  - intros Hn. rewrite Hsafe, Hs.
    destruct (args !! "safe_search") as [[]|]; try done. by destruct (Hn f).
Qed.

(** At [{query: "cats", page: 0.5625, safe_search: 3}]: no [pageno], no
    [safesearch]. *)
Lemma general_numeric_arguments_witness :
  searchValues (searxngSearchParams "cats" decimalArgs) !! "pageno" = None
  ∧ searchValues (searxngSearchParams "cats" decimalArgs) !! "safesearch" = None.
Proof.
  destruct (general_numeric_arguments "cats" decimalArgs) as (Hp & _ & Hs & _).
  split.
  - apply (Hp (S754_finite false 9 (-4)) 0 eq_refl).
    + unfold truncation. vm_compute. repeat split; by intros [=].
    + unfold minInt, maxInt. lia.
  - apply (Hs (S754_finite false 3 0) 3 eq_refl).
    + unfold truncation. vm_compute. repeat split; by intros [=].
    + unfold minInt, maxInt. lia.
Defined.

(** ** The query string read back *)

Lemma prefix_char (x0 x : ascii) (s : string) :
  String.prefix (String x0 EmptyString) (String x s) = bool_decide (x = x0).
Proof.
  cbn [String.prefix]. destruct (ascii_dec x0 x) as [<-|Hne].
  - destruct s; symmetry; by apply bool_decide_eq_true_2.
  - symmetry. apply bool_decide_eq_false_2. congruence.
Qed.

Lemma split_go_step (x0 x : ascii) (cur s : string) :
  gostrings.split_go (String x0 EmptyString) 0 cur (String x s)
  = if bool_decide (x = x0)
    then String.rev cur :: gostrings.split_go (String x0 EmptyString) 0 EmptyString s
    else gostrings.split_go (String x0 EmptyString) 0 (String x cur) s.
Proof.
  change (gostrings.split_go (String x0 EmptyString) 0 cur (String x s))
    with (if String.prefix (String x0 EmptyString) (String x s)
          then String.rev cur
               :: gostrings.split_go (String x0 EmptyString) 0 EmptyString s
          else gostrings.split_go (String x0 EmptyString) 0 (String x cur) s).
  by rewrite prefix_char.
Qed.

Lemma free_of_cons (c x : ascii) (s : string) :
  free_of c (String x s) ↔ c ≠ x ∧ free_of c s.
Proof. unfold free_of. simpl. apply not_elem_of_cons. Qed.

(** Splitting a piece without separator, followed by the rest. *)
Lemma split_go_piece (x0 : ascii) (p cur rest : string) :
  free_of x0 p →
  gostrings.split_go (String x0 EmptyString) 0 cur (p +:+ String x0 rest)
  = (String.rev cur +:+ p)
    :: gostrings.split_go (String x0 EmptyString) 0 EmptyString rest.
Proof.
  revert cur. induction p as [|x p IH]; intros cur Hp.
  - change (EmptyString +:+ String x0 rest) with (String x0 rest).
    rewrite split_go_step, bool_decide_eq_true_2 by done.
    by rewrite append_empty_r.
  - apply free_of_cons in Hp as [Hx Hp].
    change (String x p +:+ String x0 rest) with (String x (p +:+ String x0 rest)).
    rewrite split_go_step, bool_decide_eq_false_2 by congruence.
    rewrite IH by done. by rewrite rev_cons, append_assoc.
Qed.

Lemma split_go_last (x0 : ascii) (p cur : string) :
  free_of x0 p →
  gostrings.split_go (String x0 EmptyString) 0 cur p = [String.rev cur +:+ p].
Proof.
  revert cur. induction p as [|x p IH]; intros cur Hp.
  - simpl. by rewrite append_empty_r.
  - apply free_of_cons in Hp as [Hx Hp].
    rewrite split_go_step, bool_decide_eq_false_2 by congruence.
    rewrite IH by done. by rewrite rev_cons, append_assoc.
Qed.

(** Pieces without the separator, joined and split again, are the pieces. *)
Lemma Split_of_Join (x0 : ascii) (l : list string) :
  l ≠ [] → Forall (free_of x0) l →
  gostrings.Split (gostrings.Join l (String x0 EmptyString)) (String x0 EmptyString) = l.
Proof.
  intros Hl Hf. unfold gostrings.Split.
  induction Hf as [|p l Hp Hf IH]; [done|]. destruct l as [|q l].
  - simpl gostrings.Join. by apply (split_go_last x0 p EmptyString).
  - rewrite Join_cons by done.
    change (String x0 EmptyString +:+ ?s) with (String x0 s).
    rewrite (split_go_piece x0 p EmptyString) by done.
    f_equal. by apply IH.
Qed.

Lemma ascii_of_code (c : ascii) : byte_of (code c) = c.
Proof. apply ascii_N_embedding. Qed.

(** One escaped byte is read back as the byte. *)
Lemma QueryUnescape_step (c : ascii) (s : string) :
  QueryUnescape (url.QueryEscape (String c s))
  = String c <$> QueryUnescape (url.QueryEscape s).
Proof.
  destruct c as [b0 b1 b2 b3 b4 b5 b6 b7].
  destruct b0, b1, b2, b3, b4, b5, b6, b7; reflexivity.
Qed.

Lemma QueryEscape_unescape (s : string) :
  QueryUnescape (url.QueryEscape s) = Some s.
Proof.
  induction s as [|c s IH]; [done|]. by rewrite QueryUnescape_step, IH.
Qed.

Lemma QueryEscape_safe (s : string) :
  Forall (λ c, urlSafe c = true) (list_ascii_of_string (url.QueryEscape s)).
Proof.
  induction s as [|c s IH]; [constructor|].
  destruct c as [b0 b1 b2 b3 b4 b5 b6 b7].
  destruct b0, b1, b2, b3, b4, b5, b6, b7;
    cbn [url.QueryEscape]; repeat (constructor; [reflexivity|]); exact IH.
Qed.

Lemma free_of_app (c : ascii) (a b : string) :
  free_of c a → free_of c b → free_of c (a +:+ b).
Proof.
  intros Ha Hb. induction a as [|x a IH]; [done|].
  apply free_of_cons in Ha as [Hx Ha].
  change (String x a +:+ b) with (String x (a +:+ b)).
  apply free_of_cons. auto.
Qed.

Lemma urlSafe_free_of (c : ascii) (s : string) :
  urlSafe c = false →
  Forall (λ x, urlSafe x = true) (list_ascii_of_string s) → free_of c s.
Proof.
  intros Hc Hs. unfold free_of. intros Hin.
  rewrite Forall_forall in Hs. specialize (Hs c Hin). congruence.
Qed.

Lemma QueryEscape_free_of (c : ascii) (s : string) :
  urlSafe c = false → free_of c (url.QueryEscape s).
Proof. intros Hc. apply (urlSafe_free_of c _ Hc), QueryEscape_safe. Qed.

Lemma pair_text_free_of (c : ascii) (k v : string) :
  urlSafe c = false → c ≠ "="%char → free_of c (pair_text k v).
Proof.
  intros Hc Hne. unfold pair_text.
  apply free_of_app; [by apply QueryEscape_free_of|].
  apply free_of_app; [|by apply QueryEscape_free_of].
  apply free_of_cons. split; [done|]. unfold free_of. simpl. apply not_elem_of_nil.
Qed.

Lemma cut_go_first (sep : ascii) (a b : string) :
  free_of sep a → cut_go sep (a +:+ String sep b) = Some (a, b).
Proof.
  intros Ha. induction a as [|x a IH].
  - change (EmptyString +:+ String sep b) with (String sep b).
    simpl. by rewrite Ascii.eqb_refl.
  - apply free_of_cons in Ha as [Hx Ha].
    change (String x a +:+ String sep b) with (String x (a +:+ String sep b)).
    simpl. destruct (Ascii.eqb_spec x sep) as [->|_]; [done|].
    by rewrite IH.
Qed.

Lemma Contains_free_of (c : ascii) (s : string) :
  free_of c s → Contains s c = false.
Proof.
  unfold free_of, Contains. induction (list_ascii_of_string s) as [|x l IH]; [done|].
  intros [Hx Hl]%not_elem_of_cons. simpl.
  destruct (Ascii.eqb_spec c x) as [->|_]; [done|]. by apply IH.
Qed.

Lemma pair_text_not_empty (k v : string) :
  String.eqb (pair_text k v) EmptyString = false.
Proof.
  unfold pair_text. destruct (url.QueryEscape k); reflexivity.
Qed.

(** One pair of the query string is read back as its key and value. *)
Lemma parseStep_pair (m : url.Values) (err : option string) (k v : string) :
  parseStep (m, err) (pair_text k v)
  = (<[k := default [] (m !! k) ++ [v]]> m, err).
Proof.
  unfold parseStep.
  rewrite Contains_free_of by by apply pair_text_free_of.
  rewrite pair_text_not_empty.
  unfold Cut, pair_text at 1.
  change ("=" +:+ ?s) with (String "=" s).
  rewrite cut_go_first by by apply QueryEscape_free_of.
  by rewrite !QueryEscape_unescape.
Qed.

Lemma parseStep_pairs (kvs : list (string * string)) (m : url.Values)
    (err : option string) :
  foldl parseStep (m, err) ((λ kv, pair_text kv.1 kv.2) <$> kvs)
  = (foldl (λ m kv, <[kv.1 := default [] (m !! kv.1) ++ [kv.2]]> m) m kvs, err).
Proof.
  revert m. induction kvs as [|[k v] kvs IH]; intros m; [done|].
  rewrite fmap_cons. cbn [foldl fst snd]. by rewrite parseStep_pair, IH.
Qed.

Lemma param_optPair (cond : bool) (key value : string) :
  param cond key value = (λ kv, pair_text kv.1 kv.2) <$> optPair cond key value.
Proof. by destruct cond. Qed.

(** X10.  The query string [Search] builds is read back by [url.ParseQuery],
    without an error, as exactly the parameters [Search] set: whatever
    bytes the query, the categories, the engines, the language and the time
    range hold ([&], [=], [;], [%], spaces, bytes that are no text), none
    can add, drop or change a parameter. *)
Theorem query_string_round_trip (ord : MapOrder) (params : SearchParams) :
  ParseQuery (url.Encode ord (searchValues params)) = (searchValues params, None).
Proof.
  rewrite Encode_searchValues. cbv zeta. rewrite !param_optPair.
  rewrite <- !fmap_app.
  unfold ParseQuery.
  rewrite (Split_of_Join "&").
  - rewrite parseStep_pairs. f_equal.
    rewrite searchValues_steps. unfold optPair, set_if, url.Set_.
    generalize (gostrings.Join (SearchParams.Categories params) ",").
    generalize (gostrings.Join (SearchParams.Engines params) ",").
    generalize (strconv.Itoa (SearchParams.PageNo params)).
    generalize (strconv.Itoa (SearchParams.SafeSearch params)).
    generalize (SearchParams.Query params) (SearchParams.Language params)
      (SearchParams.TimeRange params).
    intros q l t s p e c.
    repeat match goal with |- context [bool_decide ?P] => destruct (bool_decide P) end;
      apply map_eq; intros k; vm_compute; reflexivity.
  - intros E. apply fmap_nil_inv in E.
    destruct (optPair _ "categories" _), (optPair _ "engines" _); discriminate E.
  - apply Forall_fmap, Forall_forall. intros [k v] _. simpl.
    by apply pair_text_free_of.
Qed.

(** ** The lists of categories and engines, joined and split again *)

Lemma string_length_ind (P : string → Prop) :
  (∀ s, (∀ t, (String.length t < String.length s)%nat → P t) → P s) → ∀ s, P s.
Proof.
  intros Hstep s. remember (String.length s) as n eqn:Hn. revert s Hn.
  induction n as [n IH] using lt_wf_ind. intros s ->.
  apply Hstep. intros t Ht. by apply (IH (String.length t)).
Qed.

Lemma trimLeft_free_of (c : ascii) (s : string) :
  free_of c s → free_of c (gostrings.trimLeft s).
Proof.
  induction s as [s IH] using string_length_ind. intros Hs.
  destruct s as [|c1 s1]; [done|]. cbn [gostrings.trimLeft].
  pose proof Hs as [_ Hs1]%free_of_cons.
  destruct (gostrings.isSpace1 c1); [apply IH; [simpl; lia|done]|].
  destruct s1 as [|c2 s2]; [done|].
  pose proof Hs1 as [_ Hs2]%free_of_cons.
  destruct (gostrings.isSpace2 c1 c2); [apply IH; [simpl; lia|done]|].
  destruct s2 as [|c3 s3]; [done|].
  pose proof Hs2 as [_ Hs3]%free_of_cons.
  destruct (gostrings.isSpace3 c1 c2 c3); [apply IH; [simpl; lia|done]|done].
Qed.

Lemma trimLeftRev_free_of (c : ascii) (s : string) :
  free_of c s → free_of c (gostrings.trimLeftRev s).
Proof.
  induction s as [s IH] using string_length_ind. intros Hs.
  destruct s as [|c1 s1]; [done|]. cbn [gostrings.trimLeftRev].
  pose proof Hs as [_ Hs1]%free_of_cons.
  destruct (gostrings.isSpace1 c1); [apply IH; [simpl; lia|done]|].
  destruct s1 as [|c2 s2]; [done|].
  pose proof Hs1 as [_ Hs2]%free_of_cons.
  destruct (gostrings.isSpace2 c2 c1); [apply IH; [simpl; lia|done]|].
  destruct s2 as [|c3 s3]; [done|].
  pose proof Hs2 as [_ Hs3]%free_of_cons.
  destruct (gostrings.isSpace3 c3 c2 c1); [apply IH; [simpl; lia|done]|done].
Qed.

Lemma rev_free_of (c : ascii) (s : string) :
  free_of c s → free_of c (String.rev s).
Proof.
  induction s as [|x s IH]; [done|]. intros [Hx Hs]%free_of_cons.
  rewrite rev_cons. apply free_of_app; [by apply IH|].
  apply free_of_cons. split; [done|]. unfold free_of. simpl. apply not_elem_of_nil.
Qed.

Lemma TrimSpace_free_of (c : ascii) (s : string) :
  free_of c s → free_of c (gostrings.TrimSpace s).
Proof.
  intros Hs. unfold gostrings.TrimSpace, gostrings.trimRight.
  by apply rev_free_of, trimLeftRev_free_of, rev_free_of, trimLeft_free_of.
Qed.

Lemma splitTrim_free_of (s : string) : Forall (free_of ",") (splitTrim s).
Proof.
  unfold splitTrim. apply Forall_fmap.
  eapply Forall_impl; [apply Split_comma_free|].
  intros x Hx. by apply TrimSpace_free_of.
Qed.

Lemma coerced_free_of (arg : option string) (default : list string) :
  Forall (free_of ",") default → Forall (free_of ",") (coerced arg default).
Proof.
  intros Hd. unfold coerced. destruct arg as [s|]; [|done].
  destruct (bool_decide _); [apply splitTrim_free_of|done].
Qed.

Lemma word_free_of_comma (s : string) :
  bool_decide (free_of "," s) = true → Forall (free_of ",") [s].
Proof. intros H%bool_decide_eq_true_1. by repeat constructor. Qed.

(** X11.  The categories and the engines of every search are sent as one value,
    joined by commas.  No element a handler builds holds a comma, and no list
    is empty, so splitting the value on commas gives back exactly the list
    of the handler. *)
Theorem lists_survive_the_join (query : string) (args : gmap string value) :
  Forall (λ build,
    let p := build query args in
    gostrings.Split (gostrings.Join (SearchParams.Categories p) ",") ","
    = SearchParams.Categories p
    ∧ gostrings.Split (gostrings.Join (SearchParams.Engines p) ",") ","
      = SearchParams.Engines p)
    paramBuilders.
Proof.
  destruct (params_fields query args) as (Hc & Heg & Hei & _).
  destruct (params_fixed query args) as (Hnc & Hne & _).
  assert (SearchParams.Categories (searxngImageSearchParams query args) = ["images"])
    as Hic.
  { unfold searxngImageSearchParams. cbv zeta. by repeat case_match. }
  assert (∀ l, l ≠ [] → Forall (free_of ",") l →
               gostrings.Split (gostrings.Join l ",") "," = l) as Hrt.
  { intros l Hl Hf. by apply (Split_of_Join ","). }
  unfold paramBuilders. repeat apply Forall_cons_2; [..|by apply Forall_nil];
    cbv zeta; split; apply Hrt;
    rewrite ?Hc, ?Heg, ?Hei, ?Hnc, ?Hne, ?Hic;
    try (apply coerced_not_nil; done);
    try (apply coerced_free_of);
    try done;
    by apply word_free_of_comma.
Qed.

(** ** The payload of the image and of the news search *)

Lemma SearchResponse_json_keys (r : SearchResponse) :
  objectKeys (SearchResponse_json r)
  = ["query"; "number_of_results"; "results"]
    ++ optField (bool_decide (SearchResponse.Answers r ≠ [])) "answers"
    ++ optField (bool_decide (SearchResponse.Corrections r ≠ [])) "corrections"
    ++ optField (bool_decide (SearchResponse.Infoboxes r ≠ [])) "infoboxes"
    ++ optField (bool_decide (SearchResponse.Suggestions r ≠ [])) "suggestions".
Proof.
  unfold SearchResponse_json, objectKeys.
  destruct (SearchResponse.Answers r), (SearchResponse.Corrections r),
    (SearchResponse.Infoboxes r), (SearchResponse.Suggestions r); reflexivity.
Qed.

(** X12.  A successful image or news search returns the whole decoded response,
    written by [MarshalIndent] with an indent of two spaces: an object with
    the keys [query], [number_of_results] and [results], then [answers],
    [corrections], [infoboxes] and [suggestions], each exactly when its list
    is not empty, in this order, the order of the fields of the struct.
    Unlike the general search, these two do return the infoboxes. *)
Theorem full_response_payload `{!GoLib} (c : SearXNGClient) (name : string)
    (args : gmap string value) (w : World) :
  Forall (λ tool,
    ∀ result, res (tool.1 (call name args) w) = Ok result →
      ∃ query r,
        args !! "query" = Some (VString query)
        ∧ res (Search c (tool.2 query args) w) = Ok r
        ∧ result
          = mcp.NewToolResultText (render EmptyString "  " 0 (SearchResponse_json r))
        ∧ objectKeys (SearchResponse_json r)
          = ["query"; "number_of_results"; "results"]
            ++ optField (bool_decide (SearchResponse.Answers r ≠ [])) "answers"
            ++ optField (bool_decide (SearchResponse.Corrections r ≠ [])) "corrections"
            ++ optField (bool_decide (SearchResponse.Infoboxes r ≠ [])) "infoboxes"
            ++ optField (bool_decide (SearchResponse.Suggestions r ≠ [])) "suggestions")
    (fullResponseTools c).
Proof.
  assert (∀ prefix params result,
    res (finish prefix SearchResponse_json (Search c params w)) = Ok result →
    ∃ r, res (Search c params w) = Ok r
         ∧ result
           = mcp.NewToolResultText (render EmptyString "  " 0 (SearchResponse_json r)))
    as Hfin.
  { intros prefix params result. unfold finish. cbn [res].
    destruct (res (Search c params w)) as [r|e]; [|done].
    destruct (MarshalIndent _ _ _) as [text|e] eqn:Hm; [|done].
    intros [= <-]. exists r. split; [done|].
    by rewrite (MarshalIndent_Ok _ _ _ _ Hm). }
  unfold fullResponseTools. repeat apply Forall_cons_2; [..|by apply Forall_nil];
    cbn [fst snd]; intros result.
  - rewrite searxngImageSearchHandler_run. cbn [call mcp.Params mcp.Arguments]. cbv zeta.
    destruct (args !! "query") as [[| | |query| |]|] eqn:Hq; try done.
    cbn [as_string]. intros (r & Hr & ->)%Hfin.
    exists query, r. repeat split; try done. apply SearchResponse_json_keys.
  - rewrite searxngNewsSearchHandler_run. cbn [call mcp.Params mcp.Arguments]. cbv zeta.
    destruct (args !! "query") as [[| | |query| |]|] eqn:Hq; try done.
    cbn [as_string]. intros (r & Hr & ->)%Hfin.
    exists query, r. repeat split; try done. apply SearchResponse_json_keys.
Qed.

(** On the scenario of the specification, for the image search. *)
Lemma full_response_payload_witness :
  ∃ query r,
    catsArgs !! "query" = Some (VString query)
    ∧ res (@Search stubLib stubClient (searxngImageSearchParams query catsArgs)
             (stubWorld 200 "{}" canonical_order)) = Ok r
    ∧ mcp.NewToolResultText
        (@render stubLib EmptyString "  " 0 (SearchResponse_json catsResponse))
      = mcp.NewToolResultText (@render stubLib EmptyString "  " 0 (SearchResponse_json r))
    ∧ objectKeys (SearchResponse_json r)
      = ["query"; "number_of_results"; "results"]
        ++ optField (bool_decide (SearchResponse.Answers r ≠ [])) "answers"
        ++ optField (bool_decide (SearchResponse.Corrections r ≠ [])) "corrections"
        ++ optField (bool_decide (SearchResponse.Infoboxes r ≠ [])) "infoboxes"
        ++ optField (bool_decide (SearchResponse.Suggestions r ≠ [])) "suggestions".
Proof.
  pose proof (@full_response_payload stubLib stubClient "searxng_image_search" catsArgs
                (stubWorld 200 "{}" canonical_order)) as H.
  unfold fullResponseTools in H. apply Forall_cons in H as [H _].
  apply H. clear H. vm_compute. reflexivity.
Defined.

(** ** The payload of the engines information *)

Lemma value_ind_nested (P : value → Prop) :
  P VNil → (∀ b, P (VBool b)) → (∀ f, P (VNumber f)) → (∀ s, P (VString s)) →
  (∀ l, Forall P l → P (VArray l)) →
  (∀ m, Forall (λ kv, P kv.2) m → P (VMap m)) →
  ∀ v, P v.
Proof.
  intros Hnil Hbool Hnum Hstr Harr Hmap.
  fix IH 1. intros [| b | f | s | l | m].
  - exact Hnil.
  - exact (Hbool b).
  - exact (Hnum f).
  - exact (Hstr s).
  - apply Harr. induction l as [|x l IHl]; constructor; [apply IH|apply IHl].
  - apply Hmap. induction m as [|[k x] m IHm]; constructor; [apply IH|apply IHm].
Qed.

Lemma keysSorted_array (elems : list json) :
  keysSorted (JArray elems) ↔ Forall keysSorted elems.
Proof.
  induction elems as [|x l IH]; simpl.
  - split; [constructor|done].
  - rewrite Forall_cons. simpl in IH. by rewrite IH.
Qed.

Lemma keysSorted_object (fields : list (string * json)) :
  keysSorted (JObject fields)
  ↔ Sorted String.le fields.*1 ∧ Forall (λ kv, keysSorted kv.2) fields.
Proof.
  cbn [keysSorted]. apply and_iff_compat_l.
  induction fields as [|kv l IH].
  - split; [constructor|done].
  - rewrite Forall_cons. by rewrite IH.
Qed.

Lemma sortByKey_sorted {V : Type} (l : list (string * V)) :
  Sorted String.le (sortByKey l).*1.
Proof.
  apply (Sorted_fmap _ key_le String.le); [done|].
  apply Sorted_merge_sort, _.
Qed.

Lemma value_json_keysSorted (v : value) : keysSorted (value_json v).
Proof.
  induction v as [| | | | l IH | m IH] using value_ind_nested; try done.
  - cbn [value_json]. apply keysSorted_array. by apply Forall_fmap.
  - cbn [value_json]. apply keysSorted_object. split; [apply sortByKey_sorted|].
    unfold sortByKey. rewrite merge_sort_Permutation. by apply Forall_fmap.
Qed.

Lemma config_json_keysSorted (ord : MapOrder) (config : option (gmap string value)) :
  keysSorted (config_json ord config).
Proof.
  destruct config as [m|]; [|done]. unfold config_json, map_json.
  apply keysSorted_object. split; [apply sortByKey_sorted|].
  unfold sortByKey. rewrite merge_sort_Permutation, range_perm.
  apply Forall_forall. intros [k x] Hk%elem_of_map_to_list.
  rewrite lookup_fmap in Hk. destruct (m !! k) as [v|]; [|done].
  injection Hk as <-. apply value_json_keysSorted.
Qed.

(** X13.  A successful engines-info call returns the decoded [/config] payload
    written by [MarshalIndent] with an indent of two spaces.  The document
    is the same whatever order the run iterates its maps in: every object in
    it, at every depth, is written with its keys in ascending order.  A
    payload that decodes to the nil map is written [null]. *)
Theorem engines_info_payload `{!GoLib} (c : SearXNGClient)
    (request : mcp.CallToolRequest) (w : World) (result : mcp.CallToolResult) :
  res (searxngEnginesInfoHandler c request w) = Ok result →
  ∃ config,
    res (GetEngines c w) = Ok config
    ∧ result
      = mcp.NewToolResultText
          (render EmptyString "  " 0 (config_json canonical_order config))
    ∧ keysSorted (config_json canonical_order config)
    ∧ (config = None → result = mcp.NewToolResultText "null").
Proof.
  rewrite searxngEnginesInfoHandler_run. unfold finishEngines. cbn [res].
  destruct (res (GetEngines c w)) as [config|e]; [|done].
  destruct (MarshalIndent _ _ _) as [text|e] eqn:Hm; [|done].
  intros [= <-]. exists config.
  apply MarshalIndent_Ok in Hm. subst text.
  assert (config_json (order w) config = config_json canonical_order config) as ->.
  { destruct config as [m|]; [|done]. apply map_json_order. }
  repeat split; [apply config_json_keysSorted|]. by intros ->.
Qed.

(** On a payload with nested maps. *)
Lemma engines_info_payload_witness :
  ∃ config,
    res (@GetEngines configLib stubClient (stubWorld 200 "{}" reversed_order)) = Ok config
    ∧ mcp.NewToolResultText
        (@render configLib EmptyString "  " 0
           (config_json reversed_order (Some sampleConfig)))
      = mcp.NewToolResultText
          (@render configLib EmptyString "  " 0 (config_json canonical_order config))
    ∧ keysSorted (config_json canonical_order config)
    ∧ (config = None
       → mcp.NewToolResultText
           (@render configLib EmptyString "  " 0
              (config_json reversed_order (Some sampleConfig)))
         = mcp.NewToolResultText "null").
Proof.
  apply (@engines_info_payload configLib stubClient (call "searxng_engines_info" ∅)
           (stubWorld 200 "{}" reversed_order)).
  vm_compute. reflexivity.
Defined.

(** ** When the payload cannot be written *)

Lemma unsupported_array (elems : list json) :
  unsupported (JArray elems) = None ↔ Forall (λ x, unsupported x = None) elems.
Proof.
  induction elems as [|x l IH].
  - split; [constructor|done].
  - rewrite Forall_cons. rewrite <- IH. cbn [unsupported].
    destruct (unsupported x); [|tauto]. split; [done|]. by intros [? _].
Qed.

Lemma unsupported_object (fields : list (string * json)) :
  unsupported (JObject fields) = None
  ↔ Forall (λ kv, unsupported kv.2 = None) fields.
Proof.
  induction fields as [|[k x] l IH].
  - split; [constructor|done].
  - rewrite Forall_cons. rewrite <- IH. cbn [unsupported snd].
    destruct (unsupported x); [|tauto]. split; [done|]. by intros [? _].
Qed.

Lemma unsupported_strings (l : list string) : unsupported (strings_json l) = None.
Proof.
  unfold strings_json. apply unsupported_array, Forall_fmap, Forall_forall. done.
Qed.

Lemma unsupported_result (x : SearchResult) :
  unsupported (SearchResult_json x) = None
  ↔ float64_isFinite (SearchResult.Score x) = true.
Proof.
  unfold SearchResult_json. rewrite unsupported_object.
  rewrite !Forall_app, !Forall_cons. cbn [snd unsupported].
  unfold omitempty.
  destruct (SearchResult.Score x) as [s|[]| |s m e]; simpl;
    destruct (String.eqb _ _);
    rewrite ?Forall_cons, ?Forall_nil; cbn [snd unsupported unsupportedFloat];
    split; try done; try tauto; intros H; decompose [and] H; done.
Qed.

Lemma unsupported_results (rs : option (list SearchResult)) :
  unsupported (Results_json rs) = None
  ↔ Forall (λ x, float64_isFinite (SearchResult.Score x) = true) (default [] rs).
Proof.
  destruct rs as [l|]; [|split; [constructor|done]].
  unfold Results_json. cbn [default].
  rewrite unsupported_array, Forall_fmap.
  apply Forall_iff. intros x. apply unsupported_result.
Qed.

Lemma unsupported_map (ord : MapOrder) (m : gmap string json) :
  unsupported (map_json ord m) = None
  ↔ map_Forall (λ _ v, unsupported v = None) m.
Proof.
  unfold map_json. rewrite unsupported_object.
  unfold sortByKey. rewrite merge_sort_Permutation, range_perm.
  rewrite map_Forall_to_list. apply Forall_iff. by intros [k v].
Qed.

Lemma response_unsupported (ord : MapOrder) (r : SearchResponse) :
  unsupported (map_json ord (searxngSearchResponse r)) = None
  ↔ Forall (λ x, float64_isFinite (SearchResult.Score x) = true)
      (default [] (SearchResponse.Results r)).
Proof.
  rewrite unsupported_map, <- unsupported_results.
  unfold searxngSearchResponse. cbv zeta.
  repeat match goal with |- context [bool_decide ?P] => destruct (bool_decide P) end.
  all: rewrite ?map_Forall_insert by by simplify_map_eq.
  all: split; [intros H; decompose [and] H; assumption|].
  all: intros H; repeat split; try done; try apply unsupported_strings.
  all: apply map_Forall_empty.
Qed.

(** X14.  Once [Search] has answered, the general search fails only at writing
    the payload, and it does exactly when some result carries a score that
    is a NaN or an infinity, which JSON has no text for; with finite scores
    it always returns a payload. *)
Theorem general_search_serializes `{!GoLib} (c : SearXNGClient) (name query : string)
    (args : gmap string value) (w : World) (r : SearchResponse) :
  args !! "query" = Some (VString query) →
  res (Search c (searxngSearchParams query args) w) = Ok r →
  ((∃ result, res (searxngSearchHandler c (call name args) w) = Ok result)
   ↔ Forall (λ x, float64_isFinite (SearchResult.Score x) = true)
       (default [] (SearchResponse.Results r)))
  ∧ ((∃ x, x ∈ default [] (SearchResponse.Results r)
           ∧ float64_isFinite (SearchResult.Score x) = false) →
     ∃ e, res (searxngSearchHandler c (call name args) w)
          = Err ("result serialization error: json: unsupported value: " +:+ e)).
Proof.
  intros Hq Hr.
  destruct (handlers_on_query c name query args w Hq) as (-> & _ & _).
  unfold finish. cbn [res]. rewrite Hr. unfold MarshalIndent.
  pose proof (response_unsupported (order w) r) as Hu.
  destruct (unsupported _) as [e|].
  - split.
    + split; [by intros [? ?]|]. intros Hfin. by apply Hu in Hfin.
    + intros _. by exists e.
  - split.
    + split; [intros _; by apply Hu|]. intros _. by eexists.
    + intros (x & Hx & Hf). exfalso.
      destruct Hu as [Hu _]. specialize (Hu eq_refl).
      rewrite Forall_forall in Hu. specialize (Hu x Hx). congruence.
Qed.

(** On the scenario of the specification, whose one result has no score,
    and on a response whose one result has a NaN for its score. *)
Lemma general_search_serializes_witness :
  ((∃ result,
      res (@searxngSearchHandler stubLib stubClient (call "searxng_search" catsArgs)
             (stubWorld 200 "{}" canonical_order)) = Ok result)
   ↔ Forall (λ x, float64_isFinite (SearchResult.Score x) = true)
       (default [] (SearchResponse.Results catsResponse)))
  ∧ ∃ e, res (@searxngSearchHandler nanLib stubClient (call "searxng_search" catsArgs)
                (stubWorld 200 "{}" canonical_order))
         = Err ("result serialization error: json: unsupported value: " +:+ e).
Proof.
  split.
  - apply (@general_search_serializes stubLib stubClient "searxng_search" "cats" catsArgs
             (stubWorld 200 "{}" canonical_order) catsResponse).
    + reflexivity.
    + vm_compute. reflexivity.
  - apply (@general_search_serializes nanLib stubClient "searxng_search" "cats" catsArgs
             (stubWorld 200 "{}" canonical_order) nanResponse).
    + reflexivity.
    + vm_compute. reflexivity.
    + eexists. split; [apply list_elem_of_here|reflexivity].
Defined.

(** ** [GetEngines], the errors of the handlers, and the order of maps *)

(** X2.  [GetEngines] succeeds in exactly one way: the URL parses, the backend
    answers with status 200, the body is read to its end, and the body
    decodes; the mapping returned is the decoded one, handed on as it is. *)
Theorem GetEngines_success `{!GoLib} (c : SearXNGClient) (w : World)
    (config : option (gmap string value)) :
  res (GetEngines c w) = Ok config
  ↔ url_Parse_error (BaseURL c +:+ "/config") = None
    ∧ ∃ resp,
        backend w (enginesRequest c) = Ok resp
        ∧ http.StatusCode resp = 200
        ∧ http.readErr (http.RespBody resp) = None
        ∧ Unmarshal_config (http.read (http.RespBody resp)) = Ok config.
Proof.
  rewrite GetEngines_run. unfold enginesAnswer, ReadAll, http.StatusOK.
  destruct (url_Parse_error _) as [e|]; simpl.
  { split; [done|]. by intros [? _]. }
  destruct (backend w _) as [resp|e]; simpl.
  2: { split; [done|]. by intros (_ & resp & ? & _). }
  destruct (Z.eqb_spec (http.StatusCode resp) 200) as [Hs|Hs].
  2: { split; [done|]. intros (_ & resp' & [= <-] & ? & _). done. }
  destruct (http.readErr (http.RespBody resp)) as [e|] eqn:Hr.
  { split; [done|]. intros (_ & resp' & [= <-] & _ & Hr' & _). congruence. }
  split.
  - intros Hu. split; [done|]. exists resp. repeat split; try done.
    by destruct (Unmarshal_config _) as [r'|e]; simplify_eq/=.
  - intros (_ & resp' & [= <-] & _ & _ & ->). done.
Qed.

Lemma finish_errors `{!GoLib} (prefix : string) encode
    (o : outcome SearchResponse) (e : string) :
  res (finish prefix encode o) = Err e →
  (∃ cause, e = prefix +:+ cause)
  ∨ (∃ cause, e = "result serialization error: " +:+ cause).
Proof.
  unfold finish. cbn [res]. destruct (res o) as [r|e'].
  - destruct (MarshalIndent _ _ _) as [text|e']; [done|].
    intros [= <-]. right. by eexists.
  - intros [= <-]. left. by eexists.
Qed.

(** X5.  A handler that fails says where: its error is the input error
    ([query must be a string]), or the error of the client behind the prefix
    of the handler, or the error of the encoder behind
    [result serialization error: ].  No error of the client or of the
    encoder is passed on bare. *)
Theorem handler_errors_name_their_stage `{!GoLib} (c : SearXNGClient)
    (request : mcp.CallToolRequest) (w : World) :
  Forall (λ tool,
    ∀ e, res (tool.2 request w) = Err e →
      e = "query must be a string"
      ∨ (∃ cause, e = errorPrefix tool.1 +:+ cause)
      ∨ (∃ cause, e = "result serialization error: " +:+ cause))
    (registeredTools c).
Proof.
  unfold registeredTools. repeat apply Forall_cons_2; [..|by apply Forall_nil];
    cbn [fst snd]; intros e.
  - rewrite searxngSearchHandler_run. cbv zeta.
    destruct (as_string _); [|intros [= <-]; by left].
    intros He%finish_errors. by right.
  - rewrite searxngEnginesInfoHandler_run. unfold finishEngines. cbn [res].
    destruct (res (GetEngines c w)) as [config|e'].
    + destruct (MarshalIndent _ _ _) as [text|e']; [done|].
      intros [= <-]. right. right. by eexists.
    + intros [= <-]. right. left. by eexists.
  - rewrite searxngImageSearchHandler_run. cbv zeta.
    destruct (as_string _); [|intros [= <-]; by left].
    intros He%finish_errors. by right.
  - rewrite searxngNewsSearchHandler_run. cbv zeta.
    destruct (as_string _); [|intros [= <-]; by left].
    intros He%finish_errors. by right.
Qed.

(** On a transport failure, for the image search. *)
Lemma handler_errors_name_their_stage_witness :
  "image search error: error executing request: connection refused"
  = "query must be a string"
  ∨ (∃ cause,
       "image search error: error executing request: connection refused"
       = errorPrefix imageSearchTool +:+ cause)
  ∨ (∃ cause,
       "image search error: error executing request: connection refused"
       = "result serialization error: " +:+ cause).
Proof.
  pose proof (@handler_errors_name_their_stage stubLib stubClient
                (call "searxng_image_search" catsArgs)
                {| backend := λ _, Err "connection refused";
                   order := canonical_order |}) as H.
  unfold registeredTools in H.
  apply Forall_cons in H as [_ H]. apply Forall_cons in H as [_ H].
  apply Forall_cons in H as [H _]. apply H. clear H.
  vm_compute. reflexivity.
Defined.

Lemma config_json_order (ord1 ord2 : MapOrder) (config : option (gmap string value)) :
  config_json ord1 config = config_json ord2 config.
Proof. destruct config as [m|]; [|done]. apply map_json_order. Qed.

Lemma GetEngines_world `{!GoLib} (c : SearXNGClient) (w1 w2 : World) :
  (∀ req, backend w1 req = backend w2 req) → GetEngines c w1 = GetEngines c w2.
Proof. intros Hb. by rewrite !GetEngines_run, Hb. Qed.

(** X15.  The image search, the news search and the engines information are as
    deterministic as the general search: two runs on the same request,
    against backends that answer every request alike, give the same outcome
    whatever order each run iterates its maps in. *)
Theorem handlers_deterministic `{!GoLib} (c : SearXNGClient)
    (request : mcp.CallToolRequest) (w1 w2 : World) :
  (∀ req, backend w1 req = backend w2 req) →
  Forall (λ tool, tool.2 request w1 = tool.2 request w2) (registeredTools c).
Proof.
  intros Hb.
  unfold registeredTools. repeat apply Forall_cons_2; [..|by apply Forall_nil];
    cbn [snd].
  - rewrite !searxngSearchHandler_run. cbv zeta.
    destruct (as_string _) as [query|]; [|done].
    rewrite (Search_world c _ w1 w2 Hb). unfold finish. f_equal.
    destruct (res (Search c _ w2)) as [r|e]; [|done].
    by rewrite (map_json_order (order w1) (order w2)).
  - rewrite !searxngEnginesInfoHandler_run, (GetEngines_world c w1 w2 Hb).
    unfold finishEngines. f_equal.
    destruct (res (GetEngines c w2)) as [config|e]; [|done].
    by rewrite (config_json_order (order w1) (order w2)).
  - rewrite !searxngImageSearchHandler_run. cbv zeta.
    destruct (as_string _) as [query|]; [|done].
    by rewrite (Search_world c _ w1 w2 Hb).
  - rewrite !searxngNewsSearchHandler_run. cbv zeta.
    destruct (as_string _) as [query|]; [|done].
    by rewrite (Search_world c _ w1 w2 Hb).
Qed.

(** On the [/config] payload with nested maps, one run iterating its maps
    in the opposite order of the other. *)
Lemma handlers_deterministic_witness :
  Forall (λ tool,
    tool.2 (call "searxng_engines_info" catsArgs) (stubWorld 200 "{}" canonical_order)
    = tool.2 (call "searxng_engines_info" catsArgs) (stubWorld 200 "{}" reversed_order))
    (@registeredTools configLib stubClient).
Proof. apply (@handlers_deterministic configLib). reflexivity. Defined.

(** ** The language and the time range *)

Lemma params_text_fields (query : string) (args : gmap string value) :
  SearchParams.Language (searxngSearchParams query args)
  = languageOf (as_string (args !! "language"))
  ∧ SearchParams.Language (searxngNewsSearchParams query args)
    = languageOf (as_string (args !! "language"))
  ∧ SearchParams.TimeRange (searxngSearchParams query args)
    = default EmptyString (as_string (args !! "time_range"))
  ∧ SearchParams.TimeRange (searxngNewsSearchParams query args)
    = default EmptyString (as_string (args !! "time_range")).
Proof.
  unfold searxngSearchParams, searxngNewsSearchParams, languageOf.
  cbv zeta.
  destruct (as_string (args !! "categories")) as [cs|];
    destruct (as_string (args !! "engines")) as [es|];
    destruct (as_string (args !! "language")) as [ls|];
    destruct (as_string (args !! "time_range")) as [ts|];
    destruct (as_float64 (args !! "page")) as [pf|];
    destruct (as_float64 (args !! "safe_search")) as [sf|];
    rewrite <- ?nonEmpty_decide;
    repeat match goal with |- context [nonEmpty ?x] => destruct (nonEmpty x) end;
    repeat split; reflexivity.
Qed.

Lemma languageOf_not_empty (arg : option string) : languageOf arg ≠ EmptyString.
Proof.
  unfold languageOf. destruct arg as [s|]; [|done].
  destruct (bool_decide_reflect (s ≠ EmptyString)); done.
Qed.

(** X9.  The general and the news search send the [language] argument when it
    is a non-empty string and [language=en] otherwise, also for an empty
    string.  They send a [time_range] argument as it is, whatever non-empty
    string it holds: the value is not checked against day, week, month and
    year; an empty, absent or non-string [time_range] sends none. *)
Theorem language_and_time_range (query : string) (args : gmap string value) :
  Forall (λ build,
    let v := searchValues (build query args) in
    let time := default EmptyString (as_string (args !! "time_range")) in
    v !! "language" = Some [languageOf (as_string (args !! "language"))]
    ∧ v !! "time_range" = included (bool_decide (time ≠ EmptyString)) time)
    [searxngSearchParams; searxngNewsSearchParams].
Proof.
  destruct (params_text_fields query args) as (Hlg & Hln & Htg & Htn).
  repeat apply Forall_cons_2; [..|by apply Forall_nil]; cbv zeta.
  - destruct (searchValues_lookup (searxngSearchParams query args))
      as (_ & _ & _ & _ & Hl & _ & Ht & _).
    cbv zeta in Hl, Ht. rewrite Hl, Ht, Hlg, Htg. split; [|done].
    apply included_Some, bool_decide_eq_true_2, languageOf_not_empty.
  - destruct (searchValues_lookup (searxngNewsSearchParams query args))
      as (_ & _ & _ & _ & Hl & _ & Ht & _).
    cbv zeta in Hl, Ht. rewrite Hl, Ht, Hln, Htn. split; [|done].
    apply included_Some, bool_decide_eq_true_2, languageOf_not_empty.
Qed.

(** With an empty [language] and the [time_range] [fortnight]. *)
Example language_and_time_range_example :
  searchValues (searxngNewsSearchParams "cats" textArgs) !! "language" = Some ["en"]
  ∧ searchValues (searxngNewsSearchParams "cats" textArgs) !! "time_range"
    = Some ["fortnight"].
Proof. split; by vm_compute. Qed.
